(** * Namespace configuration engine of the ECS ENI CNI plugin

    A shallow embedding of the two namespace-closure families of the
    plugin:

    - [plugins/eni/engine/nsclosure.go]: the static-address variant
      ([setupNamespaceClosureContext], [teardownNamespaceClosureContext]);
    - the DHCP-leased variant ([setupNamespaceClosure],
      [teardownNamespaceClosure]) with its dhclient process management.

    The collaborators (netlink, exec, ioutil, os) are Go interfaces held
    in the closure structs.  They are modelled as records of functions
    over an abstract external world [W]; every call made through them is
    appended, together with what it returned, to a call log, so that the
    order of the operations of a closure can be stated.

    Conventions.  A Go [error] is [option error] ([None] is nil) and a
    [(value, error)] pair a [result].  The parsers of package [net] are
    parameters; [strings.TrimSpace], [strconv.Atoi] and
    [net.HardwareAddr.String] are written out.  The seelog calls of the
    DHCP variant only write to the log file and are left out. *)

From Stdlib Require Import String Ascii List ZArith Lia Bool.
From Stdlib.Strings Require Import Byte.
Import ListNotations.
Local Open Scope string_scope.
Local Open Scope Z_scope.

Set Implicit Arguments.

(* ================================================================== *)
(** ** Go values: errors and results *)
(* ================================================================== *)

(** The dynamic types of the [error] values that reach the engine.  A Go
    type assertion [err.(syscall.Errno)] succeeds exactly on the first
    constructor. *)
Inductive error : Type :=
| Errno (n : Z)                                (* syscall.Errno *)
| errorString (s : string)                     (* errors.New of the standard library *)
| fundamental (msg : string)                   (* github.com/pkg/errors: New, Errorf *)
| withStack (cause : error) (msg : string)     (* github.com/pkg/errors: Wrap, Wrapf *)
| NumError (Func Num : string) (Err : error)   (* *strconv.NumError *)
| SyscallError (Syscall : string) (Err : error)  (* *os.SyscallError *)
| PathError (Op Path : string) (Err : error)   (* *os.PathError *)
| ExitError (code : Z).                        (* *exec.ExitError *)

(** [errors.Wrap(err, message)] on a non-nil [err]. *)
Definition Wrap (err : error) (message : string) : error := withStack err message.

(** [errors.New(message)] of github.com/pkg/errors. *)
Definition New (message : string) : error := fundamental message.

(** syscall.EEXIST and syscall.RTN_BLACKHOLE on Linux. *)
Definition EEXIST : Z := 17.
Definition RTN_BLACKHOLE : Z := 6.

(** A Go [(value, error)] pair: the value is used only when the error is nil. *)
Inductive result (A : Type) : Type :=
| Ok (a : A)
| Err (e : error).
Arguments Ok {A} a.
Arguments Err {A} e.

(* ================================================================== *)
(** ** The parts of the Go standard library the engine calls *)
(* ================================================================== *)

(** [unicode.IsSpace] on the UTF-8 encoding of a rune: one, two and three
    byte encodings (U+0009..U+000D, U+0020; U+0085, U+00A0; U+1680,
    U+2000..U+200A, U+2028, U+2029, U+202F, U+205F, U+3000). *)
Definition isSpace1 (c : byte) : bool :=
  match c with
  | x09 | x0a | x0b | x0c | x0d | x20 => true
  | _ => false
  end.

Definition isSpace2 (c1 c2 : byte) : bool :=
  match c1, c2 with
  | xc2, x85 | xc2, xa0 => true
  | _, _ => false
  end.

Definition isSpace3 (c1 c2 c3 : byte) : bool :=
  match c1, c2, c3 with
  | xe1, x9a, x80 => true
  | xe2, x80, (x80 | x81 | x82 | x83 | x84 | x85 | x86 | x87 | x88 | x89 | x8a) => true
  | xe2, x80, (xa8 | xa9 | xaf) => true
  | xe2, x81, x9f => true
  | xe3, x80, x80 => true
  | _, _, _ => false
  end.

(** Drop the white-space runes at the front of a byte sequence; [s2] and
    [s3] recognise the two and three byte encodings in reading order. *)
Fixpoint trimFront (s2 : byte -> byte -> bool) (s3 : byte -> byte -> byte -> bool)
    (s : list byte) : list byte :=
  match s with
  | [] => []
  | c1 :: r1 =>
      if isSpace1 c1 then trimFront s2 s3 r1
      else match r1 with
           | [] => s
           | c2 :: r2 =>
               if s2 c1 c2 then trimFront s2 s3 r2
               else match r2 with
                    | [] => s
                    | c3 :: r3 =>
                        if s3 c1 c2 c3 then trimFront s2 s3 r3 else s
                    end
           end
  end.

Definition TrimLeftSpace (s : list byte) : list byte :=
  trimFront isSpace2 isSpace3 s.

(** From the back the encodings are met last byte first. *)
Definition TrimRightSpace (s : list byte) : list byte :=
  rev (trimFront (fun c2 c1 => isSpace2 c1 c2)
                 (fun c3 c2 c1 => isSpace3 c1 c2 c3) (rev s)).

(** [strings.TrimSpace]. *)
Definition TrimSpace (s : string) : string :=
  string_of_list_byte (TrimRightSpace (TrimLeftSpace (list_byte_of_string s))).

Definition ErrSyntax : error := errorString "invalid syntax".
Definition ErrRange : error := errorString "value out of range".

Definition maxUint64 : Z := 2 ^ 64 - 1.

(** The digit loop of [strconv.ParseUint(s, 10, 64)]: [n] is the value
    read so far.  The result is the value, or [ErrSyntax] / [ErrRange]. *)
Fixpoint parseDigits (s : list byte) (n : Z) : result Z :=
  match s with
  | [] => Ok n
  | c :: r =>
      let d := Z.of_N (Byte.to_N c) - 48 in
      if (d <? 0) || (9 <? d) then Err ErrSyntax
      else if maxUint64 / 10 + 1 <=? n then Err ErrRange
      else
        let n1 := n * 10 + d in
        if maxUint64 <? n1 then Err ErrRange
        else parseDigits r n1
  end.

Definition ParseUint (s : list byte) : result Z :=
  match s with
  | [] => Err ErrSyntax
  | _ => parseDigits s 0
  end.

(** [strconv.Atoi] where [int] has 64 bits: an optional sign, then
    decimal digits; the error is a [*NumError] naming the input. *)
Definition Atoi (s : string) : result Z :=
  let numError e := Err (NumError "Atoi" s e) in
  match list_byte_of_string s with
  | [] => numError ErrSyntax
  | c :: r =>
      let neg := match c with x2d => true | _ => false end in
      let digits := match c with x2b | x2d => r | _ => c :: r end in
      match ParseUint digits with
      | Err e => numError e
      | Ok un =>
          let cutoff := 2 ^ 63 in
          if negb neg && (cutoff <=? un) then numError ErrRange
          else if neg && (cutoff <? un) then numError ErrRange
          else Ok (if neg then - un else un)
      end
  end.

(** [net.HardwareAddr] and [net.IP] are byte slices; the nil slice is []. *)
Definition HardwareAddr : Type := list byte.
Definition IP : Type := list byte.

Definition hexDigit (n : N) : ascii :=
  ascii_of_N (if (n <? 10)%N then 48 + n else 87 + n)%N.

Fixpoint hexPairs (a : list byte) : string :=
  match a with
  | [] => ""
  | b :: r =>
      let n := Byte.to_N b in
      String ":" (String (hexDigit (n / 16)) (String (hexDigit (n mod 16)) (hexPairs r)))
  end.

(** [net.HardwareAddr.String]: lower-case hex pairs joined by colons. *)
Definition HardwareAddr_String (a : HardwareAddr) : string :=
  match hexPairs a with
  | "" => ""
  | String _ rest => rest
  end.

(** [strings.Join(args, " ")], as the [%v] verb prints a []string
    between brackets. *)
Fixpoint join (sep : string) (l : list string) : string :=
  match l with
  | [] => ""
  | [x] => x
  | x :: r => x ++ sep ++ join sep r
  end.

Definition fmt_strings (l : list string) : string := "[" ++ join " " l ++ "]".

(** The line feed that ends the contents of a PID file. *)
Definition newline : string := String (ascii_of_nat 10) "".


(* ================================================================== *)
(** ** Kernel objects *)
(* ================================================================== *)

(** What the engine reads of a [netlink.Link] through [Attrs()]. *)
Record Link : Type := mkLink {
  Index : Z;
  Name : string;
  Link_HardwareAddr : HardwareAddr
}.

Record IPNet : Type := mkIPNet {
  IPNet_IP : IP;
  Mask : list byte
}.

Record Addr : Type := mkAddr {
  Addr_IPNet : IPNet;
  Label : string
}.

(** [netlink.Route]; the fields the engine leaves out have Go's zero
    value: 0, nil ([None] for the pointer, [] for the slice). *)
Record Route : Type := mkRoute {
  LinkIndex : Z;
  Dst : option IPNet;
  Gw : IP;
  Type_ : Z
}.

(** The handle [os.FindProcess] gives back. *)
Record Process : Type := mkProcess { Pid : Z }.

(* ================================================================== *)
(** ** Collaborators and the call log *)
(* ================================================================== *)

(** One call through a collaborator interface. *)
Inductive Call : Type :=
| CParseAddr (s : string)
| CLinkByName (name : string)
| CLinkSetName (link : Link) (name : string)
| CAddrAdd (link : Link) (addr : Addr)
| CLinkSetUp (link : Link)
| CRouteAdd (route : Route)
| CLinkList
| CCombinedOutput (name : string) (args : list string)
| CReadFile (path : string)
| CFindProcess (pid : Z)
| CKill (p : Process).

(** What the call returned. *)
Inductive Response : Type :=
| RNil
| RErr (e : error)
| RAddr (a : Addr)
| RLink (l : Link)
| RLinks (ls : list Link)
| ROutput (out : string) (err : option error)
| RBytes (b : list byte)
| RProcess (p : Process).

Record Event : Type := mkEvent {
  ev_call : Call;
  ev_resp : Response
}.

(** Calls that look a device up or change kernel state;
    [ParseAddr] only parses its argument. *)
Definition is_kernel_call (c : Call) : bool :=
  match c with
  | CLinkByName _ | CLinkSetName _ _ | CAddrAdd _ _ | CLinkSetUp _
  | CRouteAdd _ | CLinkList => true
  | _ => false
  end.

Definition resp_of_error (e : option error) : Response :=
  match e with
  | None => RNil
  | Some e => RErr e
  end.

Definition resp_of_result {A : Type} (r : A -> Response) (x : result A) : Response :=
  match x with
  | Ok a => r a
  | Err e => RErr e
  end.

Section Collaborators.

(** The state outside the process: kernel, file system, processes. *)
Variable W : Type.

(** [netlinkwrapper.NetLink] *)
Record NetLink : Type := mkNetLink {
  ParseAddr : string -> result Addr;
  LinkByName : string -> W -> result Link * W;
  LinkSetName : Link -> string -> W -> option error * W;
  AddrAdd : Link -> Addr -> W -> option error * W;
  LinkSetUp : Link -> W -> option error * W;
  RouteAdd : Route -> W -> option error * W;
  LinkList : W -> result (list Link) * W
}.

(** [execwrapper.Exec]: [Command(name, args...)] followed by
    [CombinedOutput()] on the command. *)
Record Exec : Type := mkExec {
  CombinedOutput : string -> list string -> W -> (string * option error) * W
}.

(** [ioutilwrapper.IOUtil] *)
Record IOUtil : Type := mkIOUtil {
  ReadFile : string -> W -> result (list byte) * W
}.

(** [oswrapper.OS] with the [Kill] of the process handles it returns. *)
Record OS : Type := mkOS {
  FindProcess : Z -> W -> result Process * W;
  Kill : Process -> W -> option error * W
}.

(** The world together with the log of the calls made so far. *)
Record St : Type := mkSt {
  world : W;
  calls : list Event
}.

(** Computations of the engine: state passing over [St]. *)
Definition M (A : Type) : Type := St -> A * St.

Definition ret {A : Type} (a : A) : M A := fun s => (a, s).

Definition bind {A B : Type} (m : M A) (k : A -> M B) : M B :=
  fun s => let (a, s') := m s in k a s'.

(** A call through a collaborator: run it on the world, log it. *)
Definition invoke {A : Type} (c : Call) (resp : A -> Response)
    (f : W -> A * W) : M A :=
  fun s =>
    let (a, w) := f (world s) in
    (a, {| world := w; calls := calls s ++ [mkEvent c (resp a)] |}).

(** A parse through the [NetLink] interface: logged, the world is untouched. *)
Definition do_ParseAddr (nl : NetLink) (s : string) : M (result Addr) :=
  invoke (CParseAddr s) (resp_of_result RAddr) (fun w => (ParseAddr nl s, w)).

Definition do_LinkByName (nl : NetLink) (name : string) : M (result Link) :=
  invoke (CLinkByName name) (resp_of_result RLink) (LinkByName nl name).

Definition do_LinkSetName (nl : NetLink) (l : Link) (name : string) : M (option error) :=
  invoke (CLinkSetName l name) resp_of_error (LinkSetName nl l name).

Definition do_AddrAdd (nl : NetLink) (l : Link) (a : Addr) : M (option error) :=
  invoke (CAddrAdd l a) resp_of_error (AddrAdd nl l a).

Definition do_LinkSetUp (nl : NetLink) (l : Link) : M (option error) :=
  invoke (CLinkSetUp l) resp_of_error (LinkSetUp nl l).

Definition do_RouteAdd (nl : NetLink) (r : Route) : M (option error) :=
  invoke (CRouteAdd r) resp_of_error (RouteAdd nl r).

Definition do_LinkList (nl : NetLink) : M (result (list Link)) :=
  invoke CLinkList (resp_of_result RLinks) (LinkList nl).

Definition do_CombinedOutput (ex : Exec) (name : string) (args : list string)
    : M (string * option error) :=
  invoke (CCombinedOutput name args) (fun r => ROutput (fst r) (snd r))
         (CombinedOutput ex name args).

Definition do_ReadFile (io : IOUtil) (path : string) : M (result (list byte)) :=
  invoke (CReadFile path) (resp_of_result RBytes) (ReadFile io path).

Definition do_FindProcess (os : OS) (pid : Z) : M (result Process) :=
  invoke (CFindProcess pid) (resp_of_result RProcess) (FindProcess os pid).

Definition do_Kill (os : OS) (p : Process) : M (option error) :=
  invoke (CKill p) resp_of_error (Kill os p).

(** Go's statement sequencing for blocks that may [return err]: the
    block yields [Some err] when it returned, [None] when control falls
    through to the next statement. *)
Definition andThen (m k : M (option error)) : M (option error) :=
  fun s =>
    match m s with
    | (Some e, s') => (Some e, s')
    | (None, s') => k s'
    end.

(** [err = f(...); if err != nil { return errors.Wrap(err, msg) }] *)
Definition orWrap (m : M (option error)) (msg : string) : M (option error) :=
  fun s =>
    match m s with
    | (Some e, s') => (Some (Wrap e msg), s')
    | (None, s') => (None, s')
    end.

Definition linkWithMACNotFoundError : error :=
  New "engine: device with mac address not found".

(** The first link of [links] whose hardware address prints as [target]. *)
Fixpoint firstLinkWithMAC (target : string) (links : list Link) : option Link :=
  match links with
  | [] => None
  | link :: rest =>
      if String.eqb (HardwareAddr_String (Link_HardwareAddr link)) target
      then Some link
      else firstLinkWithMAC target rest
  end.

(** [getLinkByHardwareAddress], the same text in both files. *)
Definition getLinkByHardwareAddress (netLink : NetLink) (hardwareAddr : HardwareAddr)
    : M (result Link) :=
  bind (do_LinkList netLink) (fun r =>
  match r with
  | Err err => ret (Err err)
  | Ok links =>
      match firstLinkWithMAC (HardwareAddr_String hardwareAddr) links with
      | Some link => ret (Ok link)
      | None => ret (Err linkWithMACNotFoundError)
      end
  end).

End Collaborators.

Arguments ret {W A} a _.
Arguments mkSt {W} world calls.
Arguments linkWithMACNotFoundError : clear implicits.

Declare Scope engine_scope.
Delimit Scope engine_scope with engine.
Notation "x <- m ;; k" := (bind m (fun x => k))
  (at level 61, m at next level, right associativity) : engine_scope.
Notation "m >> k" := (andThen m k)
  (at level 61, right associativity) : engine_scope.
Local Open Scope engine_scope.

(* ================================================================== *)
(** ** The static-address variant: plugins/eni/engine/nsclosure.go *)
(* ================================================================== *)

Module Static.

Definition instanceMetadataEndpoint : string := "169.254.169.254/32".

(** [isRouteExistsError]: the error is a [syscall.Errno] and it is EEXIST. *)
Definition isRouteExistsError (err : error) : bool :=
  match err with
  | Errno errno => errno =? EEXIST
  | _ => false
  end.

Section WithWorld.

Variable W : Type.

(** [net.ParseIP] (nil, here [], when the text is no address),
    [net.ParseCIDR] and [net.ParseMAC] of the Go standard library. *)
Variable ParseIP : string -> IP.
Variable ParseCIDR : string -> result (IP * IPNet).
Variable ParseMAC : string -> result HardwareAddr.

Record setupNamespaceClosureContext : Type := mkSetup {
  netLink : NetLink W;
  ifName : string;
  deviceName : string;
  macAddress : string;
  ipv4Addr : Addr;
  ipv6Addr : option Addr;
  ipv4Gateway : IP;
  ipv6Gateway : IP;
  blockIMDS : bool
}.

Record teardownNamespaceClosureContext : Type := mkTeardown {
  td_netLink : NetLink W;
  hardwareAddr : HardwareAddr
}.

Definition msg_parse_ipv4 : string :=
  "setupNamespaceClosure engine: unable to parse ipv4 address for the interface".
Definition msg_parse_ipv4_gateway : string :=
  "setupNamespaceClosure engine: unable to parse address of the ipv4 gateway".
Definition msg_parse_ipv6 : string :=
  "setupNamespaceClosure engine: unable to parse ipv6 address for the interface".
Definition msg_parse_ipv6_gateway : string :=
  "setupNamespaceClosure engine: unable to parse address of the ipv6 gateway".

(** [newSetupNamespaceClosureContext] *)
Definition newSetupNamespaceClosureContext (netLink : NetLink W)
    (ifName deviceName macAddress ipv4Address ipv6Address : string)
    (ipv4Gateway ipv6Gateway : string) (blockIMDS : bool)
    : M W (result setupNamespaceClosureContext) :=
  r <- do_ParseAddr netLink ipv4Address ;;
  match r with
  | Err err => ret (Err (Wrap err msg_parse_ipv4))
  | Ok nlIPV4Addr =>
      match ParseIP ipv4Gateway with
      | [] => ret (Err (New msg_parse_ipv4_gateway))
      | ipv4GatewayIP =>
          let nsClosure :=
            {| netLink := netLink;
               ifName := ifName;
               deviceName := deviceName;
               macAddress := macAddress;
               ipv4Addr := nlIPV4Addr;
               ipv6Addr := None;
               ipv4Gateway := ipv4GatewayIP;
               ipv6Gateway := [];
               blockIMDS := blockIMDS |} in
          if String.eqb ipv6Address "" then ret (Ok nsClosure)
          else
            r6 <- do_ParseAddr netLink ipv6Address ;;
            match r6 with
            | Err err => ret (Err (Wrap err msg_parse_ipv6))
            | Ok nlIPV6Addr =>
                match ParseIP ipv6Gateway with
                | [] => ret (Err (New msg_parse_ipv6_gateway))
                | ipv6GatewayIP =>
                    ret (Ok {| netLink := netLink;
                               ifName := ifName;
                               deviceName := deviceName;
                               macAddress := macAddress;
                               ipv4Addr := nlIPV4Addr;
                               ipv6Addr := Some nlIPV6Addr;
                               ipv4Gateway := ipv4GatewayIP;
                               ipv6Gateway := ipv6GatewayIP;
                               blockIMDS := blockIMDS |})
                end
            end
      end
  end.

Definition msg_get_link (deviceName : string) : string :=
  "setupNamespaceClosure engine: unable to get link for device '" ++ deviceName ++ "'".
Definition msg_set_name : string :=
  "setupNamespaceClosure engine: unable to change interface name".
Definition msg_add_ipv4 : string :=
  "setupNamespaceClosure engine: unable to add ipv4 address to the interface".
Definition msg_add_ipv6 : string :=
  "setupNamespaceClosure engine: unable to add ipv6 address to the interface".
Definition msg_set_up : string :=
  "setupNamespaceClosure engine: unable to bring up the device".
Definition msg_parse_imds : string :=
  "setupNamespaceClosure engine: unable to parse instance metadata endpoint".
Definition msg_block_imds : string :=
  "setupNamespaceClosure engine: unable to add route to block instance metadata".
Definition msg_route_ipv4 : string :=
  "setupNamespaceClosure engine: unable to add the route for the ipv4 gateway".
Definition msg_route_ipv6 : string :=
  "setupNamespaceClosure engine: unable to add the route for the ipv6 gateway".

(** The three routes the closure installs. *)
Definition blackholeRoute (imdsNetwork : IPNet) : Route :=
  {| LinkIndex := 0; Dst := Some imdsNetwork; Gw := []; Type_ := RTN_BLACKHOLE |}.
Definition ipv4GatewayRoute (gw : IP) : Route :=
  {| LinkIndex := 0; Dst := None; Gw := gw; Type_ := 0 |}.
Definition ipv6GatewayRoute (eniLink : Link) (gw : IP) : Route :=
  {| LinkIndex := Index eniLink; Dst := None; Gw := gw; Type_ := 0 |}.

(** [setupNamespaceClosureContext.run] *)
Definition setupNamespaceClosureContext_run
    (closureContext : setupNamespaceClosureContext) : M W (option error) :=
  let nl := netLink closureContext in
  r <- do_LinkByName nl (deviceName closureContext) ;;
  match r with
  | Err err => ret (Some (Wrap err (msg_get_link (deviceName closureContext))))
  | Ok eniLink =>
      orWrap (do_LinkSetName nl eniLink (ifName closureContext)) msg_set_name >>
      orWrap (do_AddrAdd nl eniLink (ipv4Addr closureContext)) msg_add_ipv4 >>
      match ipv6Addr closureContext with
      | Some ipv6 => orWrap (do_AddrAdd nl eniLink ipv6) msg_add_ipv6
      | None => ret None
      end >>
      orWrap (do_LinkSetUp nl eniLink) msg_set_up >>
      (if blockIMDS closureContext then
         match ParseCIDR instanceMetadataEndpoint with
         | Err err => ret (Some (Wrap err msg_parse_imds))
         | Ok (_, imdsNetwork) =>
             orWrap (do_RouteAdd nl (blackholeRoute imdsNetwork)) msg_block_imds
         end
       else ret None) >>
      orWrap (do_RouteAdd nl (ipv4GatewayRoute (ipv4Gateway closureContext)))
             msg_route_ipv4 >>
      match ipv6Addr closureContext with
      | Some _ =>
          err <- do_RouteAdd nl (ipv6GatewayRoute eniLink (ipv6Gateway closureContext)) ;;
          match err with
          | Some err =>
              if negb (isRouteExistsError err)
              then ret (Some (Wrap err msg_route_ipv6))
              else ret None
          | None => ret None
          end
      | None => ret None
      end >>
      ret None
  end.

Definition msg_parse_mac : string :=
  "newTeardownNamespaceClosure engine: malformatted mac address specified".

(** [newTeardownNamespaceClosureContext] *)
Definition newTeardownNamespaceClosureContext (netLink : NetLink W) (mac : string)
    : result teardownNamespaceClosureContext :=
  match ParseMAC mac with
  | Err err => Err (Wrap err msg_parse_mac)
  | Ok hardwareAddr =>
      Ok {| td_netLink := netLink; hardwareAddr := hardwareAddr |}
  end.

(** [teardownNamespaceClosureContext.run] *)
Definition teardownNamespaceClosureContext_run
    (closureContext : teardownNamespaceClosureContext) : M W (option error) :=
  ret None.

End WithWorld.

End Static.

(* ================================================================== *)
(** ** The DHCP-leased variant *)
(* ================================================================== *)

Module Dhcp.

Definition dhclientExecutableName : string := "dhclient".
Definition dhclientV4LeaseFilePathPrefix : string := "/var/lib/dhclient/ns-dhclient4".
Definition dhclientV4LeasePIDFilePathPrefix : string := "/var/run/ns-dhclient4".
Definition dhclientV6LeaseFilePathPrefix : string := "/var/lib/dhclient/ns-dhclient6".
Definition dhclientV6LeasePIDFilePathPrefix : string := "/var/run/ns-dhclient6".

(** [constructDHClientLeasePIDFilePathIPV4] *)
Definition constructDHClientLeasePIDFilePathIPV4 (deviceName : string) : string :=
  dhclientV4LeasePIDFilePathPrefix ++ "-" ++ deviceName ++ ".pid".

(** [constructDHClientLeasePIDFilePathIPV6] *)
Definition constructDHClientLeasePIDFilePathIPV6 (deviceName : string) : string :=
  dhclientV6LeasePIDFilePathPrefix ++ "-" ++ deviceName ++ ".pid".

(** [constructDHClientV4Args] *)
Definition constructDHClientV4Args (deviceName : string) : list string :=
  [ "-q";
    "-lf"; dhclientV4LeaseFilePathPrefix ++ "-" ++ deviceName ++ ".leases";
    "-pf"; constructDHClientLeasePIDFilePathIPV4 deviceName;
    deviceName ].

(** [constructDHClientV6Args] *)
Definition constructDHClientV6Args (deviceName : string) : list string :=
  [ "-q";
    "-6";
    "-lf"; dhclientV6LeaseFilePathPrefix ++ "-" ++ deviceName ++ ".leases";
    "-pf"; constructDHClientLeasePIDFilePathIPV6 deviceName;
    deviceName ].

Definition msg_parse_ipv4 : string :=
  "setupNamespaceClosure engine: unable to parse ipv4 address for the interface".
Definition msg_parse_ipv6 : string :=
  "setupNamespaceClosure engine: unable to parse ipv6 address for the interface".
Definition msg_get_link (deviceName : string) : string :=
  "setupNamespaceClosure engine: unable to get link for device '" ++ deviceName ++ "'".
Definition msg_add_ipv4 : string :=
  "setupNamespaceClosure engine: unable to add ipv4 address to the interface".
Definition msg_add_ipv6 : string :=
  "setupNamespaceClosure engine: unable to add ipv6 address to the interface".
Definition msg_set_up : string :=
  "setupNamespaceClosure engine: unable to bring up the device".

(** The message of a failed dhclient start: the command, its arguments
    as [%v] prints them, and the captured output. *)
Definition msg_start_dhclient (family : string) (args : list string) (out : string)
    : string :=
  "setupNamespaceClosure engine: unable to start dhclient for " ++ family ++
  " address; command: " ++ dhclientExecutableName ++ " " ++ fmt_strings args ++
  "; output: " ++ out.

Definition msg_parse_mac : string :=
  "newTeardownNamespaceClosure engine: malformatted mac address specified".
Definition msg_get_device (mac : string) : string :=
  "teardownNamespaceClosure engine: unable to get device with hardware address '"
  ++ mac ++ "'".
Definition msg_read_pid (pidFilePath : string) : string :=
  "teardownNamespaceClosure engine: error reading dhclient pid from '"
  ++ pidFilePath ++ "'".
Definition msg_parse_pid (pidFilePath : string) : string :=
  "teardownNamespaceClosure engine: error parsing dhclient pid from '"
  ++ pidFilePath ++ "'".
Definition msg_find_process (pidFilePath : string) : string :=
  "teardownNamespaceClosure engine: error getting process handle for dhclient, pid file: '"
  ++ pidFilePath ++ "'".
Definition msg_kill (pidFilePath : string) : string :=
  "teardownNamespaceClosure engine: error stopping the dhclient process, pid file: '"
  ++ pidFilePath ++ "'".

Section WithWorld.

Variable W : Type.

(** [net.ParseMAC] of the Go standard library. *)
Variable ParseMAC : string -> result HardwareAddr.

Record setupNamespaceClosure : Type := mkSetup {
  netLink : NetLink W;
  exec : Exec W;
  deviceName : string;
  ipv4Addr : Addr;
  ipv6Addr : option Addr
}.

Record teardownNamespaceClosure : Type := mkTeardown {
  td_netLink : NetLink W;
  ioutil : IOUtil W;
  os : OS W;
  hardwareAddr : HardwareAddr;
  stopDHClient6 : bool
}.

(** [newSetupNamespaceClosure] *)
Definition newSetupNamespaceClosure (netLink : NetLink W) (exec : Exec W)
    (deviceName ipv4Address ipv6Address : string)
    : M W (result setupNamespaceClosure) :=
  r <- do_ParseAddr netLink ipv4Address ;;
  match r with
  | Err err => ret (Err (Wrap err msg_parse_ipv4))
  | Ok nlIPV4Addr =>
      let nsClosure :=
        {| netLink := netLink;
           exec := exec;
           deviceName := deviceName;
           ipv4Addr := nlIPV4Addr;
           ipv6Addr := None |} in
      if String.eqb ipv6Address "" then ret (Ok nsClosure)
      else
        r6 <- do_ParseAddr netLink ipv6Address ;;
        match r6 with
        | Err err => ret (Err (Wrap err msg_parse_ipv6))
        | Ok nlIPV6Addr =>
            ret (Ok {| netLink := netLink;
                       exec := exec;
                       deviceName := deviceName;
                       ipv4Addr := nlIPV4Addr;
                       ipv6Addr := Some nlIPV6Addr |})
        end
  end.

(** [newTeardownNamespaceClosure] *)
Definition newTeardownNamespaceClosure (netLink : NetLink W) (ioutil : IOUtil W)
    (os : OS W) (mac : string) (stopDHClient6 : bool)
    : result teardownNamespaceClosure :=
  match ParseMAC mac with
  | Err err => Err (Wrap err msg_parse_mac)
  | Ok hardwareAddr =>
      Ok {| td_netLink := netLink;
            ioutil := ioutil;
            os := os;
            hardwareAddr := hardwareAddr;
            stopDHClient6 := stopDHClient6 |}
  end.

(** [setupNamespaceClosure.startDHClientV4] *)
Definition startDHClientV4 (closure : setupNamespaceClosure) : M W (option error) :=
  let args := constructDHClientV4Args (deviceName closure) in
  r <- do_CombinedOutput (exec closure) dhclientExecutableName args ;;
  match r with
  | (out, Some err) => ret (Some (Wrap err (msg_start_dhclient "ipv4" args out)))
  | (_, None) => ret None
  end.

(** [setupNamespaceClosure.startDHClientV6] *)
Definition startDHClientV6 (closure : setupNamespaceClosure) : M W (option error) :=
  let args := constructDHClientV6Args (deviceName closure) in
  r <- do_CombinedOutput (exec closure) dhclientExecutableName args ;;
  match r with
  | (out, Some err) => ret (Some (Wrap err (msg_start_dhclient "ipv6" args out)))
  | (_, None) => ret None
  end.

(** [setupNamespaceClosure.run] *)
Definition setupNamespaceClosure_run (closure : setupNamespaceClosure)
    : M W (option error) :=
  let nl := netLink closure in
  r <- do_LinkByName nl (deviceName closure) ;;
  match r with
  | Err err => ret (Some (Wrap err (msg_get_link (deviceName closure))))
  | Ok eniLink =>
      orWrap (do_AddrAdd nl eniLink (ipv4Addr closure)) msg_add_ipv4 >>
      match ipv6Addr closure with
      | Some ipv6 => orWrap (do_AddrAdd nl eniLink ipv6) msg_add_ipv6
      | None => ret None
      end >>
      orWrap (do_LinkSetUp nl eniLink) msg_set_up >>
      startDHClientV4 closure >>
      match ipv6Addr closure with
      | Some _ => startDHClientV6 closure
      | None => ret None
      end >>
      ret None
  end.

(** [teardownNamespaceClosure.stopDHClient] *)
Definition stopDHClient (closure : teardownNamespaceClosure) (pidFilePath : string)
    : M W (option error) :=
  r <- do_ReadFile (ioutil closure) pidFilePath ;;
  match r with
  | Err err => ret (Some (Wrap err (msg_read_pid pidFilePath)))
  | Ok contents =>
      match Atoi (TrimSpace (string_of_list_byte contents)) with
      | Err err => ret (Some (Wrap err (msg_parse_pid pidFilePath)))
      | Ok pid =>
          rp <- do_FindProcess (os closure) pid ;;
          match rp with
          | Err err => ret (Some (Wrap err (msg_find_process pidFilePath)))
          | Ok process =>
              orWrap (do_Kill (os closure) process) (msg_kill pidFilePath)
          end
      end
  end.

(** [teardownNamespaceClosure.run] *)
Definition teardownNamespaceClosure_run (closure : teardownNamespaceClosure)
    : M W (option error) :=
  r <- getLinkByHardwareAddress (td_netLink closure) (hardwareAddr closure) ;;
  match r with
  | Err err =>
      ret (Some (Wrap err (msg_get_device (HardwareAddr_String (hardwareAddr closure)))))
  | Ok link =>
      let deviceName := Name link in
      stopDHClient closure (constructDHClientLeasePIDFilePathIPV4 deviceName) >>
      (if stopDHClient6 closure
       then stopDHClient closure (constructDHClientLeasePIDFilePathIPV6 deviceName)
       else ret None) >>
      ret None
  end.

End WithWorld.

End Dhcp.

(* ================================================================== *)
(** ** Reading the call log *)
(* ================================================================== *)

(** [firstMatch target links link]: [link] is the first element of
    [links] whose hardware address prints as [target]. *)
Definition firstMatch (target : string) (links : list Link) (link : Link) : Prop :=
  exists pre post,
    links = (pre ++ link :: post)%list /\
    Forall (fun l => HardwareAddr_String (Link_HardwareAddr l) <> target) pre /\
    HardwareAddr_String (Link_HardwareAddr link) = target.

(** The steps of the static-address setup, as the specification numbers them. *)
Inductive StepId : Type :=
| SLookup | SRename | SAddr4 | SAddr6 | SUp | SBlackhole | SRoute4 | SRoute6.

Record Step : Type := mkStep {
  step_id : StepId;
  step_call : Call
}.

(** The only tolerated failure: "already exists" on the IPv6 default route. *)
Definition tolerated (id : StepId) (e : error) : Prop :=
  id = SRoute6 /\ e = Errno EEXIST.

Section StaticPlan.

Variable W : Type.
Variable closureContext : Static.setupNamespaceClosureContext W.

(** The ordered operations of a setup on the device [eniLink], with the
    metadata network [imdsNetwork] parsed from the fixed endpoint. *)
Definition plan (imdsNetwork : IPNet) (eniLink : Link) : list Step :=
  ([ mkStep SLookup (CLinkByName (Static.deviceName closureContext));
    mkStep SRename (CLinkSetName eniLink (Static.ifName closureContext));
    mkStep SAddr4 (CAddrAdd eniLink (Static.ipv4Addr closureContext)) ]
  ++ match Static.ipv6Addr closureContext with
     | Some ipv6 => [ mkStep SAddr6 (CAddrAdd eniLink ipv6) ]
     | None => []
     end
  ++ [ mkStep SUp (CLinkSetUp eniLink) ]
  ++ (if Static.blockIMDS closureContext
      then [ mkStep SBlackhole (CRouteAdd (Static.blackholeRoute imdsNetwork)) ]
      else [])
  ++ [ mkStep SRoute4
         (CRouteAdd (Static.ipv4GatewayRoute (Static.ipv4Gateway closureContext))) ]
  ++ match Static.ipv6Addr closureContext with
     | Some _ =>
         [ mkStep SRoute6
             (CRouteAdd (Static.ipv6GatewayRoute eniLink
                           (Static.ipv6Gateway closureContext))) ]
     | None => []
     end)%list.

(** The message that identifies a failed step. *)
Definition step_msg (id : StepId) : string :=
  match id with
  | SLookup => Static.msg_get_link (Static.deviceName closureContext)
  | SRename => Static.msg_set_name
  | SAddr4 => Static.msg_add_ipv4
  | SAddr6 => Static.msg_add_ipv6
  | SUp => Static.msg_set_up
  | SBlackhole => Static.msg_block_imds
  | SRoute4 => Static.msg_route_ipv4
  | SRoute6 => Static.msg_route_ipv6
  end.

(** [follows steps evs r]: the logged calls [evs] are the steps of
    [steps] taken in order, each one after the success (or tolerated
    failure) of the one before; the first other failure ends the log
    and is returned wrapped in the message of its step; [r] is nil
    when the log reaches the end of [steps]. *)
Inductive follows : list Step -> list Event -> option error -> Prop :=
| follows_end :
    follows [] [] None
| follows_ok st rest resp evs r :
    (forall e, resp <> RErr e) ->
    follows rest evs r ->
    follows (st :: rest) (mkEvent (step_call st) resp :: evs) r
| follows_tolerated st rest e evs r :
    tolerated (step_id st) e ->
    follows rest evs r ->
    follows (st :: rest) (mkEvent (step_call st) (RErr e) :: evs) r
| follows_abort st rest e :
    ~ tolerated (step_id st) e ->
    follows (st :: rest) [mkEvent (step_call st) (RErr e)]
            (Some (Wrap e (step_msg (step_id st)))).

(** The operations left when no IPv6 address is configured. *)
Definition ipv4_only_calls (ParseCIDR : string -> result (IP * IPNet))
    (eniLink : Link) : list Call :=
  ([ CLinkByName (Static.deviceName closureContext);
    CLinkSetName eniLink (Static.ifName closureContext);
    CAddrAdd eniLink (Static.ipv4Addr closureContext);
    CLinkSetUp eniLink ]
  ++ (if Static.blockIMDS closureContext
      then match ParseCIDR Static.instanceMetadataEndpoint with
           | Ok (_, imdsNetwork) => [ CRouteAdd (Static.blackholeRoute imdsNetwork) ]
           | Err _ => []
           end
      else [])
  ++ [ CRouteAdd (Static.ipv4GatewayRoute (Static.ipv4Gateway closureContext)) ])%list.

End StaticPlan.

Arguments follows_ok {W} closureContext st {rest resp evs r} _ _.
Arguments follows_tolerated {W} closureContext st {rest e evs r} _ _.
Arguments follows_abort {W} closureContext st rest {e} _.

(** The messages a failed construction of the static setup context carries. *)
Definition construction_messages : list string :=
  [ Static.msg_parse_ipv4; Static.msg_parse_ipv4_gateway;
    Static.msg_parse_ipv6; Static.msg_parse_ipv6_gateway ].

Definition error_message (e : error) : option string :=
  match e with
  | withStack _ msg => Some msg
  | fundamental msg => Some msg
  | _ => None
  end.

Section DhcpOutcomes.

Variable W : Type.

(** The operations of the DHCP setup when no IPv6 address is configured. *)
Definition dhcp_ipv4_only_calls (closure : Dhcp.setupNamespaceClosure W)
    (eniLink : Link) : list Call :=
  [ CLinkByName (Dhcp.deviceName closure);
    CAddrAdd eniLink (Dhcp.ipv4Addr closure);
    CLinkSetUp eniLink;
    CCombinedOutput Dhcp.dhclientExecutableName
      (Dhcp.constructDHClientV4Args (Dhcp.deviceName closure)) ].

(** The stages of stopping the dhclient recorded in [pidFilePath]: the
    calls made, what they returned, and the error of the stop. *)
Inductive stop_outcome (pidFilePath : string) : list Event -> option error -> Prop :=
| stop_read_failed e :
    stop_outcome pidFilePath
      [ mkEvent (CReadFile pidFilePath) (RErr e) ]
      (Some (Wrap e (Dhcp.msg_read_pid pidFilePath)))
| stop_parse_failed contents e :
    Atoi (TrimSpace (string_of_list_byte contents)) = Err e ->
    stop_outcome pidFilePath
      [ mkEvent (CReadFile pidFilePath) (RBytes contents) ]
      (Some (Wrap e (Dhcp.msg_parse_pid pidFilePath)))
| stop_find_failed contents pid e :
    Atoi (TrimSpace (string_of_list_byte contents)) = Ok pid ->
    stop_outcome pidFilePath
      [ mkEvent (CReadFile pidFilePath) (RBytes contents);
        mkEvent (CFindProcess pid) (RErr e) ]
      (Some (Wrap e (Dhcp.msg_find_process pidFilePath)))
| stop_kill_failed contents pid process e :
    Atoi (TrimSpace (string_of_list_byte contents)) = Ok pid ->
    stop_outcome pidFilePath
      [ mkEvent (CReadFile pidFilePath) (RBytes contents);
        mkEvent (CFindProcess pid) (RProcess process);
        mkEvent (CKill process) (RErr e) ]
      (Some (Wrap e (Dhcp.msg_kill pidFilePath)))
| stop_killed contents pid process :
    Atoi (TrimSpace (string_of_list_byte contents)) = Ok pid ->
    stop_outcome pidFilePath
      [ mkEvent (CReadFile pidFilePath) (RBytes contents);
        mkEvent (CFindProcess pid) (RProcess process);
        mkEvent (CKill process) RNil ]
      None.

(** The stages of a DHCP teardown. *)
Inductive teardown_outcome (closure : Dhcp.teardownNamespaceClosure W)
    : list Event -> option error -> Prop :=
| teardown_list_failed e :
    teardown_outcome closure
      [ mkEvent CLinkList (RErr e) ]
      (Some (Wrap e (Dhcp.msg_get_device
                       (HardwareAddr_String (Dhcp.hardwareAddr closure)))))
| teardown_not_found links :
    Forall (fun l => HardwareAddr_String (Link_HardwareAddr l)
                     <> HardwareAddr_String (Dhcp.hardwareAddr closure)) links ->
    teardown_outcome closure
      [ mkEvent CLinkList (RLinks links) ]
      (Some (Wrap linkWithMACNotFoundError
               (Dhcp.msg_get_device
                  (HardwareAddr_String (Dhcp.hardwareAddr closure)))))
| teardown_stop4_failed links link evs4 e :
    firstMatch (HardwareAddr_String (Dhcp.hardwareAddr closure)) links link ->
    stop_outcome (Dhcp.constructDHClientLeasePIDFilePathIPV4 (Name link)) evs4 (Some e) ->
    teardown_outcome closure (mkEvent CLinkList (RLinks links) :: evs4) (Some e)
| teardown_stop4_only links link evs4 :
    firstMatch (HardwareAddr_String (Dhcp.hardwareAddr closure)) links link ->
    stop_outcome (Dhcp.constructDHClientLeasePIDFilePathIPV4 (Name link)) evs4 None ->
    Dhcp.stopDHClient6 closure = false ->
    teardown_outcome closure (mkEvent CLinkList (RLinks links) :: evs4) None
| teardown_stop6 links link evs4 evs6 r :
    firstMatch (HardwareAddr_String (Dhcp.hardwareAddr closure)) links link ->
    stop_outcome (Dhcp.constructDHClientLeasePIDFilePathIPV4 (Name link)) evs4 None ->
    Dhcp.stopDHClient6 closure = true ->
    stop_outcome (Dhcp.constructDHClientLeasePIDFilePathIPV6 (Name link)) evs6 r ->
    teardown_outcome closure (mkEvent CLinkList (RLinks links) :: (evs4 ++ evs6)%list) r.

End DhcpOutcomes.

(* ================================================================== *)
(** ** A small kernel to run the closures on *)
(* ================================================================== *)

Module Fake.

(** Links, routing table, files and live process ids. *)
Record Kernel : Type := mkKernel {
  links : list Link;
  routes : list Route;
  files : list (string * list byte);
  procs : list Z
}.

Definition bytes_eqb (a b : list byte) : bool :=
  String.eqb (string_of_list_byte a) (string_of_list_byte b).

Definition route_eqb (a b : Route) : bool :=
  (LinkIndex a =? LinkIndex b) && bytes_eqb (Gw a) (Gw b) && (Type_ a =? Type_ b).

Definition addr4 : Addr := mkAddr (mkIPNet [x0a; x00; x01; x05] [xff; xff; xff; x00]) "".
Definition addr6 : Addr :=
  mkAddr (mkIPNet [x20; x01; x0d; xb8; x00; x00; x00; x00;
                   x00; x00; x00; x00; x00; x00; x00; x05]
                  [xff; xff; xff; xff; xff; xff; xff; xff;
                   x00; x00; x00; x00; x00; x00; x00; x00]) "".

Definition parseAddr (s : string) : result Addr :=
  if String.eqb s "10.0.1.5/24" then Ok addr4
  else if String.eqb s "2001:db8::5/64" then Ok addr6
  else Err (fundamental ("invalid CIDR address: " ++ s)).

Definition ParseIP (s : string) : IP :=
  if String.eqb s "10.0.1.1" then
    [x00; x00; x00; x00; x00; x00; x00; x00; x00; x00; xff; xff; x0a; x00; x01; x01]
  else if String.eqb s "fe80::1" then
    [xfe; x80; x00; x00; x00; x00; x00; x00; x00; x00; x00; x00; x00; x00; x00; x01]
  else [].

Definition imdsIP : IP :=
  [x00; x00; x00; x00; x00; x00; x00; x00; x00; x00; xff; xff; xa9; xfe; xa9; xfe].
Definition imdsNetwork : IPNet := mkIPNet [xa9; xfe; xa9; xfe] [xff; xff; xff; xff].

Definition ParseCIDR (s : string) : result (IP * IPNet) :=
  if String.eqb s "169.254.169.254/32" then Ok (imdsIP, imdsNetwork)
  else Err (fundamental ("invalid CIDR address: " ++ s)).

Fixpoint findByName (name : string) (ls : list Link) : option Link :=
  match ls with
  | [] => None
  | l :: r => if String.eqb (Name l) name then Some l else findByName name r
  end.

Definition rename (idx : Z) (name : string) (l : Link) : Link :=
  if Index l =? idx then mkLink (Index l) name (Link_HardwareAddr l) else l.

Fixpoint lookupFile (path : string) (fs : list (string * list byte))
    : option (list byte) :=
  match fs with
  | [] => None
  | (p, c) :: r => if String.eqb p path then Some c else lookupFile path r
  end.

(** [wrapErrno] makes the kernel hand its errno out inside an
    [*os.SyscallError] instead of bare. *)
Definition kernelError (wrapErrno : bool) (errno : Z) : error :=
  if wrapErrno then SyscallError "netlink" (Errno errno) else Errno errno.

Definition netLink (wrapErrno : bool) : NetLink Kernel :=
  {| ParseAddr := parseAddr;
     LinkByName := fun name w =>
       match findByName name (links w) with
       | Some l => (Ok l, w)
       | None => (Err (fundamental "Link not found"), w)
       end;
     LinkSetName := fun l name w =>
       (None, mkKernel (map (rename (Index l) name) (links w))
                       (routes w) (files w) (procs w));
     AddrAdd := fun _ _ w => (None, w);
     LinkSetUp := fun _ w => (None, w);
     RouteAdd := fun r w =>
       if existsb (route_eqb r) (routes w)
       then (Some (kernelError wrapErrno EEXIST), w)
       else (None, mkKernel (links w) (r :: routes w) (files w) (procs w));
     LinkList := fun w => (Ok (links w), w) |}.

Definition exec : Exec Kernel :=
  {| CombinedOutput := fun _ _ w => (("", None), w) |}.

Definition ioutil : IOUtil Kernel :=
  {| ReadFile := fun path w =>
       match lookupFile path (files w) with
       | Some c => (Ok c, w)
       | None => (Err (PathError "open" path (Errno 2)), w)
       end |}.

Definition os : OS Kernel :=
  {| FindProcess := fun pid w => (Ok (mkProcess pid), w);
     Kill := fun p w =>
       if existsb (Z.eqb (Pid p)) (procs w)
       then (None, mkKernel (links w) (routes w) (files w)
                            (filter (fun q => negb (q =? Pid p)) (procs w)))
       else (Some (errorString "os: process already finished"), w) |}.

Definition mac1 : HardwareAddr := [x02; x00; x00; x00; x00; x01].
Definition mac2 : HardwareAddr := [x02; x00; x00; x00; x00; x02].

Definition eni1 : Link := mkLink 3 "eni1" mac1.
Definition eni2 : Link := mkLink 4 "eni2" mac2.

(** Two devices that differ in their MAC, an empty routing table, the
    PID file of a live dhclient for [eni1] and a garbled one for [eni2]. *)
Definition kernel : Kernel :=
  {| links := [eni1; eni2];
     routes := [];
     files := [ ("/var/run/ns-dhclient4-eni1.pid", list_byte_of_string ("4242" ++ newline));
                ("/var/run/ns-dhclient4-eni2.pid", list_byte_of_string ("abc" ++ newline)) ];
     procs := [4242] |}.

(** The same kernel after a router advertisement has installed the
    IPv6 default route on the device of index 3. *)
Definition kernel_with_ra_route : Kernel :=
  {| links := links kernel;
     routes := [ mkRoute 3 None (ParseIP "fe80::1") 0 ];
     files := files kernel;
     procs := procs kernel |}.

(** The kernel with the routing table [rs]. *)
Definition kernel_with (rs : list Route) : Kernel :=
  {| links := links kernel; routes := rs; files := files kernel; procs := procs kernel |}.

Definition start (w : Kernel) : St Kernel := mkSt w [].

(** The static setup context for [eni1] with both families and the
    metadata block, and the one without IPv6. *)
Definition dualStack (wrapErrno : bool) : Static.setupNamespaceClosureContext Kernel :=
  Static.mkSetup (netLink wrapErrno) "eth0" "eni1" "02:00:00:00:00:01"
                 addr4 (Some addr6) (ParseIP "10.0.1.1") (ParseIP "fe80::1") true.

Definition ipv4Only : Static.setupNamespaceClosureContext Kernel :=
  Static.mkSetup (netLink false) "eth0" "eni1" "02:00:00:00:00:01"
                 addr4 None (ParseIP "10.0.1.1") [] true.

Definition dhcpIpv4Only : Dhcp.setupNamespaceClosure Kernel :=
  Dhcp.mkSetup (netLink false) exec "eni1" addr4 None.

Definition dhcpTeardown (mac : HardwareAddr) (stop6 : bool)
    : Dhcp.teardownNamespaceClosure Kernel :=
  Dhcp.mkTeardown (netLink false) ioutil os mac stop6.

End Fake.

(** [logs m s evs a]: run from [s], the computation [m] returns [a] and
    appends exactly the events [evs] to the call log. *)
Definition logs {W A : Type} (m : M W A) (s : St W) (evs : list Event) (a : A) : Prop :=
  fst (m s) = a /\ calls (snd (m s)) = (calls s ++ evs)%list.

(** Every step of [steps] was called and none failed, tolerated failures apart. *)
Definition all_succeeded (steps : list Step) (evs : list Event) : Prop :=
  Forall2 (fun st ev =>
             ev_call ev = step_call st /\
             forall e, ev_resp ev = RErr e -> tolerated (step_id st) e)
          steps evs.

(** A step of the DHCP setup: the call, and the error [run] returns
    when the call answers [resp] ([None] when the answer is a success). *)
Record DhcpStep : Type := mkDhcpStep {
  dstep_call : Call;
  dstep_fails : Response -> option error
}.

(** The failure of a netlink call, wrapped in the message of its step. *)
Definition fails_with (msg : string) (resp : Response) : option error :=
  match resp with
  | RErr e => Some (Wrap e msg)
  | _ => None
  end.

(** The failure of a dhclient start: the message quotes the arguments
    and the captured output. *)
Definition dhclient_fails (family : string) (args : list string) (resp : Response)
    : option error :=
  match resp with
  | ROutput out (Some e) => Some (Wrap e (Dhcp.msg_start_dhclient family args out))
  | _ => None
  end.

Section DhcpPlan.

Variable W : Type.
Variable closure : Dhcp.setupNamespaceClosure W.

(** The ordered operations of a DHCP setup on the device [eniLink]. *)
Definition dhcp_plan (eniLink : Link) : list DhcpStep :=
  let d := Dhcp.deviceName closure in
  ([ mkDhcpStep (CLinkByName d) (fails_with (Dhcp.msg_get_link d));
     mkDhcpStep (CAddrAdd eniLink (Dhcp.ipv4Addr closure))
                (fails_with Dhcp.msg_add_ipv4) ]
   ++ match Dhcp.ipv6Addr closure with
      | Some ipv6 =>
          [ mkDhcpStep (CAddrAdd eniLink ipv6) (fails_with Dhcp.msg_add_ipv6) ]
      | None => []
      end
   ++ [ mkDhcpStep (CLinkSetUp eniLink) (fails_with Dhcp.msg_set_up);
        mkDhcpStep (CCombinedOutput Dhcp.dhclientExecutableName
                      (Dhcp.constructDHClientV4Args d))
                   (dhclient_fails "ipv4" (Dhcp.constructDHClientV4Args d)) ]
   ++ match Dhcp.ipv6Addr closure with
      | Some _ =>
          [ mkDhcpStep (CCombinedOutput Dhcp.dhclientExecutableName
                          (Dhcp.constructDHClientV6Args d))
                       (dhclient_fails "ipv6" (Dhcp.constructDHClientV6Args d)) ]
      | None => []
      end)%list.

End DhcpPlan.

(** [steps_outcome steps evs r]: the log [evs] takes the steps of [steps]
    in order, each after the success of the one before; the first
    failure ends the log and is the result; the result is nil when the
    log reaches the end of [steps]. *)
Inductive steps_outcome : list DhcpStep -> list Event -> option error -> Prop :=
| steps_done :
    steps_outcome [] [] None
| steps_next st rest resp evs r :
    dstep_fails st resp = None ->
    steps_outcome rest evs r ->
    steps_outcome (st :: rest) (mkEvent (dstep_call st) resp :: evs) r
| steps_failed st rest resp e :
    dstep_fails st resp = Some e ->
    steps_outcome (st :: rest) [mkEvent (dstep_call st) resp] (Some e).

Arguments steps_next st {rest resp evs r} _ _.
Arguments steps_failed st rest {resp e} _.

(** The decimal digits and the number a sequence of them writes. *)
Definition isDigit (c : byte) : bool :=
  match c with
  | x30 | x31 | x32 | x33 | x34 | x35 | x36 | x37 | x38 | x39 => true
  | _ => false
  end.

Definition decimalValue (ds : list byte) : Z :=
  fold_left (fun n c => n * 10 + (Z.of_N (Byte.to_N c) - 48)) ds 0.

(** Reading a pair of hex digits back into the byte it prints. *)
Definition hexValue (c : ascii) : N :=
  let n := N_of_ascii c in
  if (n <? 58)%N then (n - 48)%N else (n - 87)%N.

Definition unhex (hi lo : ascii) : option byte :=
  Byte.of_N (hexValue hi * 16 + hexValue lo).

(** Case analysis on the answers of the collaborators along a run. *)
Ltac answer :=
  match goal with
  | |- context [LinkSetName ?nl ?l ?n ?w] =>
      is_var w; destruct (LinkSetName nl l n w) as [[? |] ?]; simpl
  | |- context [AddrAdd ?nl ?l ?a ?w] =>
      is_var w; destruct (AddrAdd nl l a w) as [[? |] ?]; simpl
  | |- context [LinkSetUp ?nl ?l ?w] =>
      is_var w; destruct (LinkSetUp nl l w) as [[? |] ?]; simpl
  | |- context [RouteAdd ?nl ?r ?w] =>
      is_var w; destruct (RouteAdd nl r w) as [[? |] ?]; simpl
  | |- context [CombinedOutput ?ex ?n ?a ?w] =>
      is_var w; destruct (CombinedOutput ex n a w) as [[? [? |]] ?]; simpl
  end.

Ltac log_done :=
  simpl; rewrite <- ?app_assoc; simpl;
  repeat first [ reflexivity | split ].

(** Derivations of [steps_outcome] on a log that is known. *)
Ltac outcome_done :=
  repeat first
    [ apply steps_done
    | apply steps_failed; reflexivity
    | apply steps_next; [reflexivity |] ].

(** A log without an error answer cannot hold one. *)
Ltac no_error_answer :=
  repeat (simpl in *;
          match goal with
          | H : Forall _ (_ :: _) |- _ => inversion_clear H
          | H : forall e, RErr ?x <> RErr e |- _ => now destruct (H x)
          end).

(* ================================================================== *)
(** * Properties *)
(* ================================================================== *)

(** ** The call log *)

Section LogLemmas.

Variable W : Type.

Lemma logs_ret (A : Type) (a : A) (s : St W) : logs (ret a) s [] a.
Proof. split; simpl; [reflexivity | now rewrite app_nil_r]. Qed.

Lemma logs_invoke (A : Type) (c : Call) (resp : A -> Response) (f : W -> A * W)
    (s : St W) :
  logs (invoke c resp f) s [mkEvent c (resp (fst (f (world s))))] (fst (f (world s))).
Proof. unfold logs, invoke. destruct (f (world s)); simpl. now split. Qed.

Lemma logs_bind (A B : Type) (m : M W A) (k : A -> M W B) s evs1 a evs2 b :
  logs m s evs1 a ->
  logs (k a) (snd (m s)) evs2 b ->
  logs (bind m k) s (evs1 ++ evs2) b.
Proof.
  unfold logs, bind. intros [Ha Hc] [Hb Hd].
  destruct (m s) as [a' s']; simpl in *; subst a'.
  split; [assumption | now rewrite Hd, Hc, app_assoc].
Qed.

Lemma logs_fun (A : Type) (m : M W A) s evs1 a1 evs2 a2 :
  logs m s evs1 a1 -> logs m s evs2 a2 -> evs1 = evs2 /\ a1 = a2.
Proof.
  intros [Ha Hc] [Hb Hd]. split; [| congruence].
  rewrite Hc in Hd. now apply app_inv_head in Hd.
Qed.

Lemma logs_andThen_stop (m k : M W (option error)) s evs e :
  logs m s evs (Some e) -> logs (andThen m k) s evs (Some e).
Proof.
  unfold logs, andThen. destruct (m s) as [[e'|] s']; simpl; intros [H1 H2];
    [now split | discriminate].
Qed.

Lemma logs_andThen_go (m k : M W (option error)) s evs1 evs2 r :
  logs m s evs1 None -> logs k (snd (m s)) evs2 r ->
  logs (andThen m k) s (evs1 ++ evs2) r.
Proof.
  unfold logs, andThen. destruct (m s) as [[e'|] s']; simpl; intros [H1 H2] [H3 H4];
    [discriminate |].
  split; [assumption | now rewrite H4, H2, app_assoc].
Qed.

Lemma logs_orWrap (m : M W (option error)) msg s evs r :
  logs m s evs r ->
  logs (orWrap m msg) s evs
       (match r with Some e => Some (Wrap e msg) | None => None end).
Proof.
  unfold logs, orWrap. destruct (m s) as [[e'|] s']; simpl; intros [H1 H2]; subst r;
    now split.
Qed.

End LogLemmas.

(** ** The static-address setup follows its plan *)

Lemma isRouteExistsError_true (e : error) :
  Static.isRouteExistsError e = true <-> e = Errno EEXIST.
Proof.
  destruct e; simpl; split; intros H; try discriminate.
  - apply Z.eqb_eq in H. now subst.
  - injection H as ->. reflexivity.
Qed.

Section FollowsLemmas.

Variable W : Type.
Variable ctx : Static.setupNamespaceClosureContext W.

Lemma follows_app_stop steps1 steps2 evs e :
  follows ctx steps1 evs (Some e) -> follows ctx (steps1 ++ steps2) evs (Some e).
Proof.
  intros H. remember (Some e) as r eqn:Hr. revert Hr.
  induction H; intros Hr; simpl.
  - discriminate.
  - apply follows_ok; auto.
  - apply follows_tolerated; auto.
  - apply follows_abort; auto.
Qed.

Lemma follows_app_go steps1 steps2 evs1 evs2 r :
  follows ctx steps1 evs1 None -> follows ctx steps2 evs2 r ->
  follows ctx (steps1 ++ steps2) (evs1 ++ evs2) r.
Proof.
  intros H. remember None as r0 eqn:Hr. revert Hr.
  induction H; intros Hr H2; simpl.
  - assumption.
  - apply follows_ok; auto.
  - apply follows_tolerated; auto.
  - discriminate.
Qed.

(** A nil result means the whole plan ran; and conversely. *)
Lemma follows_nil_iff steps evs r :
  follows ctx steps evs r -> (r = None <-> all_succeeded steps evs).
Proof.
  unfold all_succeeded. induction 1 as [| st rest resp evs r Hok _ IH
                                        | st rest e evs r Htol _ IH | st rest e Hnt].
  - split; [constructor | reflexivity].
  - split.
    + intros Hr. constructor; [| now apply IH].
      simpl. split; [reflexivity |]. intros e ->. now destruct (Hok e).
    + intros HF. inversion HF; subst. now apply IH.
  - split.
    + intros Hr. constructor; [| now apply IH].
      simpl. split; [reflexivity |]. intros e' [= <-]. assumption.
    + intros HF. inversion HF; subst. now apply IH.
  - split; [discriminate |].
    intros HF. inversion HF as [| ? ? ? ? [_ Ht] _]; subst.
    destruct Hnt. now apply Ht.
Qed.

(** The calls of the log are an initial part of the calls of the plan. *)
Lemma follows_prefix steps evs r :
  follows ctx steps evs r ->
  exists rest, map step_call steps = (map ev_call evs ++ rest)%list.
Proof.
  induction 1 as [| st rest resp evs r _ _ [t IH]
                  | st rest e evs r _ _ [t IH] | st rest e _]; simpl.
  - now exists [].
  - exists t. now rewrite IH.
  - exists t. now rewrite IH.
  - now exists (map step_call rest).
Qed.

(** What a failure at position [k] of the log does to the result. *)
Lemma follows_at steps evs r :
  follows ctx steps evs r ->
  forall k st ev e,
    nth_error steps k = Some st ->
    nth_error evs k = Some ev ->
    ev_resp ev = RErr e ->
    (~ tolerated (step_id st) e -> r = Some (Wrap e (step_msg ctx (step_id st)))) /\
    (tolerated (step_id st) e -> follows ctx (skipn (S k) steps) (skipn (S k) evs) r).
Proof.
  induction 1 as [| st0 rest resp evs r Hok Hf IH
                  | st0 rest e0 evs r Htol Hf IH | st0 rest e0 Hnt];
    intros k st ev e Hs He Hr.
  - destruct k; discriminate.
  - destruct k as [| k]; simpl in *.
    + injection Hs as <-. injection He as <-. simpl in Hr. now destruct (Hok e).
    + now apply (IH k st ev e).
  - destruct k as [| k]; simpl in *.
    + injection Hs as <-. injection He as <-. simpl in Hr. injection Hr as <-.
      split; [intros Hn; now destruct Hn | intros _; assumption].
    + now apply (IH k st ev e).
  - destruct k as [| k]; simpl in *.
    + injection Hs as <-. injection He as <-. simpl in Hr. injection Hr as <-.
      split; [reflexivity | intros Ht; now destruct Hnt].
    + destruct k; discriminate.
Qed.

(** The step identifiers of the plan do not depend on the device found. *)
Lemma plan_ids n1 l1 n2 l2 :
  map step_id (plan ctx n1 l1) = map step_id (plan ctx n2 l2).
Proof.
  unfold plan.
  destruct (Static.ipv6Addr ctx), (Static.blockIMDS ctx); reflexivity.
Qed.

Lemma plan_nth_id n1 l1 n2 l2 k st :
  nth_error (plan ctx n1 l1) k = Some st ->
  exists st', nth_error (plan ctx n2 l2) k = Some st' /\ step_id st' = step_id st.
Proof.
  intros H.
  assert (Hm : nth_error (map step_id (plan ctx n2 l2)) k = Some (step_id st)).
  { rewrite (plan_ids n2 l2 n1 l1). now apply map_nth_error. }
  rewrite nth_error_map in Hm.
  destruct (nth_error (plan ctx n2 l2) k) as [st' |]; [| discriminate].
  exists st'. split; [reflexivity | now injection Hm].
Qed.

(** The IPv6 default route is the last step of the plan. *)
Lemma plan_route6_last n l k st :
  nth_error (plan ctx n l) k = Some st ->
  step_id st = SRoute6 ->
  skipn (S k) (plan ctx n l) = [].
Proof.
  unfold plan.
  destruct (Static.ipv6Addr ctx), (Static.blockIMDS ctx); simpl;
    do 9 (destruct k as [| k]; simpl;
          [intros [= <-]; simpl; try discriminate; reflexivity |]);
    destruct k; discriminate.
Qed.

End FollowsLemmas.

Section StaticSetup.

Variable W : Type.
Variable ParseCIDR : string -> result (IP * IPNet).
Variable imdsIP : IP.
Variable imdsNetwork : IPNet.

(** The fixed metadata endpoint parses, as the code itself expects. *)
Hypothesis imds_parses :
  ParseCIDR Static.instanceMetadataEndpoint = Ok (imdsIP, imdsNetwork).

Variable ctx : Static.setupNamespaceClosureContext W.

(** [obeys m steps]: from every state, the block [m] follows [steps]. *)
Let obeys (m : M W (option error)) (steps : list Step) : Prop :=
  forall s, exists evs r, logs m s evs r /\ follows ctx steps evs r.

Lemma obeys_skip : obeys (ret None) [].
Proof. intros s. exists [], None. split; [apply logs_ret | constructor]. Qed.

Lemma obeys_andThen m k steps1 steps2 :
  obeys m steps1 -> obeys k steps2 -> obeys (andThen m k) (steps1 ++ steps2).
Proof.
  intros Hm Hk s. destruct (Hm s) as (evs1 & [e |] & Hl & Hf).
  - exists evs1, (Some e). split.
    + now apply logs_andThen_stop.
    + now apply follows_app_stop.
  - destruct (Hk (snd (m s))) as (evs2 & r & Hl2 & Hf2).
    exists (evs1 ++ evs2)%list, r. split.
    + now apply logs_andThen_go.
    + now apply follows_app_go.
Qed.

Lemma obeys_step id c (f : W -> option error * W) :
  id <> SRoute6 ->
  obeys (orWrap (invoke c resp_of_error f) (step_msg ctx id)) [mkStep id c].
Proof.
  intros Hid s. eexists. eexists. split.
  - apply logs_orWrap. apply logs_invoke.
  - destruct (fst (f (world s))) as [e |]; simpl.
    + apply (follows_abort ctx (mkStep id c) []). intros [H _]. now apply Hid.
    + apply (follows_ok ctx (mkStep id c)); [discriminate | constructor].
Qed.

Lemma obeys_route6 eniLink :
  obeys (bind (do_RouteAdd (Static.netLink ctx)
                 (Static.ipv6GatewayRoute eniLink (Static.ipv6Gateway ctx)))
              (fun err =>
                 match err with
                 | Some err =>
                     if negb (Static.isRouteExistsError err)
                     then ret (Some (Wrap err Static.msg_route_ipv6))
                     else ret None
                 | None => ret None
                 end))
        [mkStep SRoute6
           (CRouteAdd (Static.ipv6GatewayRoute eniLink (Static.ipv6Gateway ctx)))].
Proof.
  intros s. unfold do_RouteAdd.
  set (c := CRouteAdd _). set (f := RouteAdd _ _).
  pose proof (logs_invoke c resp_of_error f s) as Hi.
  destruct (fst (f (world s))) as [e |]; simpl in Hi.
  - destruct (Static.isRouteExistsError e) eqn:He.
    + exists [mkEvent c (RErr e)], None. split.
      * apply (@logs_bind _ _ _ _ _ _ _ _ [] _ Hi).
        rewrite He. apply logs_ret.
      * apply (follows_tolerated ctx (mkStep SRoute6 c)); [| constructor].
        split; [reflexivity | now apply isRouteExistsError_true].
    + exists [mkEvent c (RErr e)], (Some (Wrap e Static.msg_route_ipv6)). split.
      * apply (@logs_bind _ _ _ _ _ _ _ _ [] _ Hi).
        rewrite He. apply logs_ret.
      * apply (follows_abort ctx (mkStep SRoute6 c) []). intros [_ H].
        apply isRouteExistsError_true in H. congruence.
  - exists [mkEvent c RNil], None. split.
    + apply (@logs_bind _ _ _ _ _ _ _ _ [] _ Hi). apply logs_ret.
    + apply (follows_ok ctx (mkStep SRoute6 c)); [discriminate | constructor].
Qed.

(** [run] follows the plan instantiated with the device its lookup found. *)
Lemma run_follows s :
  exists evs r eniLink,
    logs (Static.setupNamespaceClosureContext_run ParseCIDR ctx) s evs r /\
    follows ctx (plan ctx imdsNetwork eniLink) evs r /\
    (forall l rest,
        evs = mkEvent (CLinkByName (Static.deviceName ctx)) (RLink l) :: rest ->
        l = eniLink).
Proof.
  unfold Static.setupNamespaceClosureContext_run, do_LinkByName.
  set (f := LinkByName _ _).
  pose proof (logs_invoke (CLinkByName (Static.deviceName ctx))
                          (resp_of_result RLink) f s) as Hi.
  destruct (fst (f (world s))) as [eniLink | e]; simpl in Hi.
  - match goal with
    | |- context [bind _ ?k] =>
        assert (Hk : obeys (k (Ok eniLink)) (tl (plan ctx imdsNetwork eniLink)))
    end.
    { unfold plan. simpl tl. cbv beta iota.
      change (mkStep SRename ?c :: ?r) with ([mkStep SRename c] ++ r)%list.
      apply obeys_andThen; [now apply (obeys_step (id := SRename)) |].
      change (mkStep SAddr4 ?c :: ?r) with ([mkStep SAddr4 c] ++ r)%list.
      apply obeys_andThen; [now apply (obeys_step (id := SAddr4)) |].
      apply obeys_andThen.
      { destruct (Static.ipv6Addr ctx);
          [now apply (obeys_step (id := SAddr6)) | apply obeys_skip]. }
      change (mkStep SUp ?c :: ?r) with ([mkStep SUp c] ++ r)%list.
      apply obeys_andThen; [now apply (obeys_step (id := SUp)) |].
      apply obeys_andThen.
      { destruct (Static.blockIMDS ctx); [| apply obeys_skip].
        rewrite imds_parses. now apply (obeys_step (id := SBlackhole)). }
      change (mkStep SRoute4 ?c :: ?r) with ([mkStep SRoute4 c] ++ r)%list.
      apply obeys_andThen; [now apply (obeys_step (id := SRoute4)) |].
      rewrite <- (app_nil_r (match Static.ipv6Addr ctx with
                             | Some _ => _ | None => _ end)).
      apply obeys_andThen; [| apply obeys_skip].
      destruct (Static.ipv6Addr ctx); [apply obeys_route6 | apply obeys_skip]. }
    destruct (Hk (snd (invoke (CLinkByName (Static.deviceName ctx))
                              (resp_of_result RLink) f s)))
      as (evs & r & Hl & Hfol).
    exists (mkEvent (CLinkByName (Static.deviceName ctx)) (RLink eniLink) :: evs),
           r, eniLink.
    split; [| split].
    + exact (logs_bind _ Hi Hl).
    + apply (follows_ok ctx (mkStep SLookup (CLinkByName (Static.deviceName ctx))));
        [discriminate | exact Hfol].
    + intros l rest [= ->]. reflexivity.
  - exists [mkEvent (CLinkByName (Static.deviceName ctx)) (RErr e)],
           (Some (Wrap e (Static.msg_get_link (Static.deviceName ctx)))),
           (mkLink 0 "" []).
    split; [| split].
    + apply (@logs_bind _ _ _ _ _ _ _ _ [] _ Hi). apply logs_ret.
    + apply (follows_abort ctx (mkStep SLookup (CLinkByName (Static.deviceName ctx)))).
      intros [H _]. discriminate.
    + intros l rest [=].
Qed.

End StaticSetup.

Unset Implicit Arguments.

(** ** Claims on the static-address setup *)

(** C2. The static-address setup resolves the device by its pre-rename
    name, renames it, adds the IPv4 address, adds the IPv6 address if one
    is configured, brings the link up, adds the blackhole route if the
    metadata block is requested, adds the IPv4 default route and, if IPv6
    is configured, the IPv6 default route scoped to the index of the
    device: the call log of [run] follows this plan in order for the
    device the lookup returned, the first failing step ends the log and
    is returned wrapped in the message of that step, and [run] returns
    nil exactly when every step of the plan was called and succeeded
    (the tolerated route-exists answer on the IPv6 route apart). *)
Theorem static_setup_runs_plan_in_order
    (W : Type) (ParseCIDR : string -> result (IP * IPNet))
    (imdsIP : IP) (imdsNetwork : IPNet)
    (ctx : Static.setupNamespaceClosureContext W) (s : St W) :
  ParseCIDR Static.instanceMetadataEndpoint = Ok (imdsIP, imdsNetwork) ->
  exists evs r eniLink,
    logs (Static.setupNamespaceClosureContext_run ParseCIDR ctx) s evs r /\
    (forall l rest,
        evs = mkEvent (CLinkByName (Static.deviceName ctx)) (RLink l) :: rest ->
        l = eniLink) /\
    follows ctx (plan ctx imdsNetwork eniLink) evs r /\
    (exists rest,
        map step_call (plan ctx imdsNetwork eniLink) = (map ev_call evs ++ rest)%list) /\
    (r = None <-> all_succeeded (plan ctx imdsNetwork eniLink) evs).
Proof.
  intros Hp.
  destruct (@run_follows W ParseCIDR imdsIP imdsNetwork Hp ctx s) as (evs & r & eniLink & Hl & Hf & Hlink).
  exists evs, r, eniLink.
  split; [exact Hl |]. split; [exact Hlink |]. split; [exact Hf |]. split.
  - exact (@follows_prefix W ctx _ evs r Hf).
  - exact (@follows_nil_iff W ctx _ evs r Hf).
Qed.

Lemma static_setup_runs_plan_in_order_witness :
  exists evs r eniLink,
    logs (Static.setupNamespaceClosureContext_run Fake.ParseCIDR (Fake.dualStack false))
         (Fake.start Fake.kernel) evs r /\
    (forall l rest,
        evs = mkEvent (CLinkByName (Static.deviceName (Fake.dualStack false))) (RLink l)
              :: rest ->
        l = eniLink) /\
    follows (Fake.dualStack false)
            (plan (Fake.dualStack false) Fake.imdsNetwork eniLink) evs r /\
    (exists rest,
        map step_call (plan (Fake.dualStack false) Fake.imdsNetwork eniLink)
        = (map ev_call evs ++ rest)%list) /\
    (r = None <->
     all_succeeded (plan (Fake.dualStack false) Fake.imdsNetwork eniLink) evs).
Proof.
  apply (static_setup_runs_plan_in_order Fake.Kernel Fake.ParseCIDR Fake.imdsIP
           Fake.imdsNetwork (Fake.dualStack false) (Fake.start Fake.kernel)).
  reflexivity.
Defined.

(** What an error answer at position [k] of the log does to [run]: at a
    step other than the IPv6 route, or with another error than a bare
    EEXIST, it is returned wrapped; a bare EEXIST on the IPv6 route is
    dropped and [run] returns nil. *)
Lemma static_setup_error_at
    (W : Type) (ParseCIDR : string -> result (IP * IPNet))
    (imdsIP : IP) (imdsNetwork : IPNet)
    (ctx : Static.setupNamespaceClosureContext W) (s : St W)
    (evs : list Event) (r : option error) (eniLink : Link)
    (k : nat) (st : Step) (ev : Event) (e : error) :
  ParseCIDR Static.instanceMetadataEndpoint = Ok (imdsIP, imdsNetwork) ->
  logs (Static.setupNamespaceClosureContext_run ParseCIDR ctx) s evs r ->
  nth_error (plan ctx imdsNetwork eniLink) k = Some st ->
  nth_error evs k = Some ev ->
  ev_resp ev = RErr e ->
  (~ tolerated (step_id st) e -> r = Some (Wrap e (step_msg ctx (step_id st)))) /\
  (tolerated (step_id st) e -> r = None).
Proof.
  intros Hp Hl Hs He Hr.
  destruct (@run_follows W ParseCIDR imdsIP imdsNetwork Hp ctx s)
    as (evs' & r' & l0 & Hl' & Hf & _).
  destruct (logs_fun Hl Hl') as [-> ->].
  destruct (@plan_nth_id W ctx imdsNetwork eniLink imdsNetwork l0 k st Hs)
    as (st' & Hs' & Hid).
  destruct (@follows_at W ctx _ _ _ Hf k st' ev e Hs' He Hr) as [Hab Htol].
  rewrite Hid in Hab, Htol. split; [exact Hab |].
  intros Ht. specialize (Htol Ht).
  rewrite (@plan_route6_last W ctx imdsNetwork l0 k st' Hs') in Htol.
  - now inversion Htol.
  - rewrite Hid. now destruct Ht.
Qed.

(** C1. In the static-address setup an "already exists" (EEXIST) answer
    of the route-add primitive is tolerated only at the IPv6 default
    route step, where [run] goes on and returns nil; the same answer at
    the IPv4 default route step or at the blackhole route step makes
    [run] return the error wrapped in the message of that step. *)
Theorem static_setup_route_exists_policy
    (W : Type) (ParseCIDR : string -> result (IP * IPNet))
    (imdsIP : IP) (imdsNetwork : IPNet)
    (ctx : Static.setupNamespaceClosureContext W) (s : St W)
    (evs : list Event) (r : option error) (eniLink : Link)
    (k : nat) (st : Step) (ev : Event) :
  ParseCIDR Static.instanceMetadataEndpoint = Ok (imdsIP, imdsNetwork) ->
  logs (Static.setupNamespaceClosureContext_run ParseCIDR ctx) s evs r ->
  nth_error (plan ctx imdsNetwork eniLink) k = Some st ->
  nth_error evs k = Some ev ->
  ev_resp ev = RErr (Errno EEXIST) ->
  (step_id st = SRoute6 -> r = None) /\
  (step_id st = SRoute4 ->
   r = Some (Wrap (Errno EEXIST) Static.msg_route_ipv4)) /\
  (step_id st = SBlackhole ->
   r = Some (Wrap (Errno EEXIST) Static.msg_block_imds)) /\
  (step_id st <> SRoute6 ->
   r = Some (Wrap (Errno EEXIST) (step_msg ctx (step_id st)))).
Proof.
  intros Hp Hl Hs He Hr.
  destruct (static_setup_error_at W ParseCIDR imdsIP imdsNetwork ctx s evs r eniLink
              k st ev _ Hp Hl Hs He Hr) as [Hab Htol].
  split; [| split; [| split]]; intros Hid.
  - apply Htol. now split.
  - rewrite Hab; [now rewrite Hid |]. intros [H _]. congruence.
  - rewrite Hab; [now rewrite Hid |]. intros [H _]. congruence.
  - apply Hab. intros [H _]. contradiction.
Qed.

Lemma static_setup_route_exists_policy_witness :
  let ctx := Fake.dualStack false in
  let out := Static.setupNamespaceClosureContext_run Fake.ParseCIDR ctx
               (Fake.start Fake.kernel_with_ra_route) in
  let st := mkStep SRoute6
              (CRouteAdd (Static.ipv6GatewayRoute Fake.eni1 (Static.ipv6Gateway ctx))) in
  (step_id st = SRoute6 -> fst out = None) /\
  (step_id st = SRoute4 ->
   fst out = Some (Wrap (Errno EEXIST) Static.msg_route_ipv4)) /\
  (step_id st = SBlackhole ->
   fst out = Some (Wrap (Errno EEXIST) Static.msg_block_imds)) /\
  (step_id st <> SRoute6 ->
   fst out = Some (Wrap (Errno EEXIST) (step_msg ctx (step_id st)))).
Proof.
  intros ctx out st.
  apply (@static_setup_route_exists_policy Fake.Kernel Fake.ParseCIDR
           Fake.imdsIP Fake.imdsNetwork ctx (Fake.start Fake.kernel_with_ra_route)
           (calls (snd out)) (fst out) Fake.eni1 7%nat st
           (mkEvent (step_call st) (RErr (Errno EEXIST)))).
  - reflexivity.
  - split; reflexivity.
  - reflexivity.
  - reflexivity.
  - reflexivity.
Defined.

(** C9. [isRouteExistsError] holds only of the bare [syscall.Errno]
    EEXIST; every other error value, an EEXIST inside another error type
    included, is not recognised, so when the IPv6 default route step of
    the static setup answers with such an error, [run] returns it wrapped
    in the message of that step. *)
Theorem route_exists_only_bare_errno
    (W : Type) (ParseCIDR : string -> result (IP * IPNet))
    (imdsIP : IP) (imdsNetwork : IPNet)
    (ctx : Static.setupNamespaceClosureContext W) (s : St W)
    (evs : list Event) (r : option error) (eniLink : Link)
    (k : nat) (st : Step) (ev : Event) (e : error) :
  ParseCIDR Static.instanceMetadataEndpoint = Ok (imdsIP, imdsNetwork) ->
  logs (Static.setupNamespaceClosureContext_run ParseCIDR ctx) s evs r ->
  nth_error (plan ctx imdsNetwork eniLink) k = Some st ->
  step_id st = SRoute6 ->
  nth_error evs k = Some ev ->
  ev_resp ev = RErr e ->
  e <> Errno EEXIST ->
  (forall e', Static.isRouteExistsError e' = true <-> e' = Errno EEXIST) /\
  (forall msg syscall path,
      Static.isRouteExistsError (Wrap (Errno EEXIST) msg) = false /\
      Static.isRouteExistsError (SyscallError syscall (Errno EEXIST)) = false /\
      Static.isRouteExistsError (PathError syscall path (Errno EEXIST)) = false) /\
  Static.isRouteExistsError e = false /\
  r = Some (Wrap e Static.msg_route_ipv6).
Proof.
  intros Hp Hl Hs Hid He Hr Hne.
  split; [exact isRouteExistsError_true |]. split; [now intros |]. split.
  - destruct (Static.isRouteExistsError e) eqn:H; [| reflexivity].
    apply isRouteExistsError_true in H. contradiction.
  - destruct (static_setup_error_at W ParseCIDR imdsIP imdsNetwork ctx s evs r eniLink
              k st ev _ Hp Hl Hs He Hr) as [Hab _].
    rewrite Hab; [now rewrite Hid |]. intros [_ H]. contradiction.
Qed.

Lemma route_exists_only_bare_errno_witness :
  let ctx := Fake.dualStack true in
  let out := Static.setupNamespaceClosureContext_run Fake.ParseCIDR ctx
               (Fake.start Fake.kernel_with_ra_route) in
  let e := SyscallError "netlink" (Errno EEXIST) in
  (forall e', Static.isRouteExistsError e' = true <-> e' = Errno EEXIST) /\
  (forall msg syscall path,
      Static.isRouteExistsError (Wrap (Errno EEXIST) msg) = false /\
      Static.isRouteExistsError (SyscallError syscall (Errno EEXIST)) = false /\
      Static.isRouteExistsError (PathError syscall path (Errno EEXIST)) = false) /\
  Static.isRouteExistsError e = false /\
  fst out = Some (Wrap e Static.msg_route_ipv6).
Proof.
  intros ctx out e.
  apply (@route_exists_only_bare_errno Fake.Kernel Fake.ParseCIDR
           Fake.imdsIP Fake.imdsNetwork ctx (Fake.start Fake.kernel_with_ra_route)
           (calls (snd out)) (fst out) Fake.eni1 7%nat
           (mkStep SRoute6
              (CRouteAdd (Static.ipv6GatewayRoute Fake.eni1 (Static.ipv6Gateway ctx))))
           (mkEvent (CRouteAdd (Static.ipv6GatewayRoute Fake.eni1
                                  (Static.ipv6Gateway ctx)))
                    (RErr e)) e).
  - reflexivity.
  - split; reflexivity.
  - reflexivity.
  - reflexivity.
  - reflexivity.
  - reflexivity.
  - discriminate.
Defined.

(** ** Construction of the setup contexts *)

(** C5. Construction of the static-address setup context fails with a
    descriptive error whenever the IPv4 address does not parse, the IPv4
    gateway does not parse, or a non-empty IPv6 address is given and it
    or the IPv6 gateway does not parse; it then produces no context, and
    it has looked no device up and changed nothing in the kernel: the
    only calls made are parses and the world is untouched. *)
Theorem static_construction_fails_fast
    (W : Type) (ParseIP : string -> IP) (nl : NetLink W)
    (ifName deviceName macAddress ipv4Address ipv6Address : string)
    (ipv4Gateway ipv6Gateway : string) (blockIMDS : bool) (s : St W) :
  (exists e, ParseAddr nl ipv4Address = Err e) \/
  ParseIP ipv4Gateway = [] \/
  (ipv6Address <> "" /\
   ((exists e, ParseAddr nl ipv6Address = Err e) \/ ParseIP ipv6Gateway = [])) ->
  exists err evs msg,
    logs (Static.newSetupNamespaceClosureContext ParseIP nl ifName deviceName
            macAddress ipv4Address ipv6Address ipv4Gateway ipv6Gateway blockIMDS)
         s evs (Err err) /\
    world (snd (Static.newSetupNamespaceClosureContext ParseIP nl ifName deviceName
                  macAddress ipv4Address ipv6Address ipv4Gateway ipv6Gateway
                  blockIMDS s)) = world s /\
    Forall (fun ev => is_kernel_call (ev_call ev) = false) evs /\
    error_message err = Some msg /\
    In msg construction_messages.
Proof.
  intros H.
  unfold Static.newSetupNamespaceClosureContext, do_ParseAddr, invoke, bind, ret, logs.
  destruct (ParseAddr nl ipv4Address) as [a4 | e4] eqn:H4; simpl.
  2:{ exists (Wrap e4 Static.msg_parse_ipv4), [mkEvent (CParseAddr ipv4Address) (RErr e4)],
        Static.msg_parse_ipv4.
      repeat split; simpl; auto. }
  destruct (ParseIP ipv4Gateway) as [| b4 g4] eqn:Hg4; simpl.
  { exists (New Static.msg_parse_ipv4_gateway),
      [mkEvent (CParseAddr ipv4Address) (RAddr a4)], Static.msg_parse_ipv4_gateway.
    repeat split; simpl; auto. }
  destruct H as [[e He] | [Hg | [Hne H6]]]; try discriminate.
  destruct (String.eqb ipv6Address "") eqn:Hv6.
  { apply String.eqb_eq in Hv6. contradiction. }
  simpl.
  destruct (ParseAddr nl ipv6Address) as [a6 | e6] eqn:H6'; simpl.
  2:{ exists (Wrap e6 Static.msg_parse_ipv6),
        [mkEvent (CParseAddr ipv4Address) (RAddr a4);
         mkEvent (CParseAddr ipv6Address) (RErr e6)], Static.msg_parse_ipv6.
      repeat split; simpl; auto 6. now rewrite <- app_assoc. }
  destruct H6 as [[e He] | Hg6]; [discriminate |].
  rewrite Hg6.
  exists (New Static.msg_parse_ipv6_gateway),
    [mkEvent (CParseAddr ipv4Address) (RAddr a4);
     mkEvent (CParseAddr ipv6Address) (RAddr a6)], Static.msg_parse_ipv6_gateway.
  repeat split; simpl; auto 6. now rewrite <- app_assoc.
Qed.

Lemma static_construction_fails_fast_witness :
  exists err evs msg,
    logs (Static.newSetupNamespaceClosureContext Fake.ParseIP (Fake.netLink false)
            "eth0" "eni1" "02:00:00:00:00:01" "10.0.1.5/24" "" "not-an-ip" ""
            true)
         (Fake.start Fake.kernel) evs (Err err) /\
    world (snd (Static.newSetupNamespaceClosureContext Fake.ParseIP
                  (Fake.netLink false)
                  "eth0" "eni1" "02:00:00:00:00:01" "10.0.1.5/24" "" "not-an-ip" ""
                  true (Fake.start Fake.kernel))) = world (Fake.start Fake.kernel) /\
    Forall (fun ev => is_kernel_call (ev_call ev) = false) evs /\
    error_message err = Some msg /\
    In msg construction_messages.
Proof.
  apply (static_construction_fails_fast Fake.Kernel Fake.ParseIP (Fake.netLink false)).
  right. left. reflexivity.
Defined.

(** ** Setup without an IPv6 address *)

Lemma static_new_empty_ipv6
    (W : Type) (ParseIP : string -> IP) (nl : NetLink W)
    (ifName deviceName macAddress ipv4Address : string)
    (ipv4Gateway ipv6Gateway : string) (blockIMDS : bool) (s : St W)
    (ctx : Static.setupNamespaceClosureContext W) :
  fst (Static.newSetupNamespaceClosureContext ParseIP nl ifName deviceName macAddress
         ipv4Address "" ipv4Gateway ipv6Gateway blockIMDS s) = Ok ctx ->
  Static.ipv6Addr ctx = None /\ Static.ipv6Gateway ctx = [].
Proof.
  unfold Static.newSetupNamespaceClosureContext, do_ParseAddr, invoke, bind, ret.
  destruct (ParseAddr nl ipv4Address); simpl; [| discriminate].
  destruct (ParseIP ipv4Gateway); simpl; [discriminate |].
  intros [= <-]. now split.
Qed.

Lemma dhcp_new_empty_ipv6
    (W : Type) (nl : NetLink W) (ex : Exec W) (deviceName ipv4Address : string)
    (s : St W) (closure : Dhcp.setupNamespaceClosure W) :
  fst (Dhcp.newSetupNamespaceClosure nl ex deviceName ipv4Address "" s) = Ok closure ->
  Dhcp.ipv6Addr closure = None.
Proof.
  unfold Dhcp.newSetupNamespaceClosure, do_ParseAddr, invoke, bind, ret.
  destruct (ParseAddr nl ipv4Address); simpl; [| discriminate].
  now intros [= <-].
Qed.

Lemma static_run_ipv4_only
    (W : Type) (ParseCIDR : string -> result (IP * IPNet))
    (ctx : Static.setupNamespaceClosureContext W) (s : St W) :
  Static.ipv6Addr ctx = None ->
  exists evs r eniLink rest,
    logs (Static.setupNamespaceClosureContext_run ParseCIDR ctx) s evs r /\
    ipv4_only_calls ctx ParseCIDR eniLink = (map ev_call evs ++ rest)%list.
Proof.
  intros H6.
  unfold Static.setupNamespaceClosureContext_run, ipv4_only_calls, logs,
    andThen, orWrap, bind, do_LinkByName, do_LinkSetName, do_AddrAdd, do_LinkSetUp,
    do_RouteAdd, invoke, ret.
  rewrite H6.
  destruct (LinkByName (Static.netLink ctx) (Static.deviceName ctx) (world s))
    as [[eniLink | e] w]; simpl.
  2:{ exists [mkEvent (CLinkByName (Static.deviceName ctx)) (RErr e)].
      eexists. exists (mkLink 0 "" []). eexists. log_done. }
  destruct (Static.blockIMDS ctx);
    [destruct (ParseCIDR Static.instanceMetadataEndpoint) as [[ip n] | pe] |];
    repeat answer;
    eexists; eexists; exists eniLink; eexists; log_done.
Qed.

Lemma dhcp_run_ipv4_only
    (W : Type) (closure : Dhcp.setupNamespaceClosure W) (s : St W) :
  Dhcp.ipv6Addr closure = None ->
  exists evs r eniLink rest,
    logs (Dhcp.setupNamespaceClosure_run closure) s evs r /\
    dhcp_ipv4_only_calls closure eniLink = (map ev_call evs ++ rest)%list.
Proof.
  intros H6.
  unfold Dhcp.setupNamespaceClosure_run, Dhcp.startDHClientV4, dhcp_ipv4_only_calls,
    logs, andThen, orWrap, bind, do_LinkByName, do_AddrAdd, do_LinkSetUp,
    do_CombinedOutput, invoke, ret.
  rewrite H6.
  destruct (LinkByName (Dhcp.netLink closure) (Dhcp.deviceName closure) (world s))
    as [[eniLink | e] w]; simpl.
  2:{ exists [mkEvent (CLinkByName (Dhcp.deviceName closure)) (RErr e)].
      eexists. exists (mkLink 0 "" []). eexists. log_done. }
  repeat answer;
    eexists; eexists; exists eniLink; eexists; log_done.
Qed.

(** C7. A setup context built with an empty IPv6 address string takes no
    IPv6 step: the calls of the static-address [run] are an initial part
    of lookup, rename, IPv4 address, link up, optional blackhole route
    and IPv4 default route (no IPv6 address, no IPv6 route), and the
    calls of the DHCP [run] an initial part of lookup, IPv4 address, link
    up and the IPv4 dhclient (no IPv6 address, no IPv6 dhclient). *)
Theorem no_ipv6_step_when_ipv6_address_empty
    (W : Type) (ParseIP : string -> IP) (ParseCIDR : string -> result (IP * IPNet))
    (nl : NetLink W) (ex : Exec W)
    (ifName deviceName macAddress ipv4Address : string)
    (ipv4Gateway ipv6Gateway : string) (blockIMDS : bool) (s0 s : St W)
    (ctx : Static.setupNamespaceClosureContext W)
    (closure : Dhcp.setupNamespaceClosure W) :
  fst (Static.newSetupNamespaceClosureContext ParseIP nl ifName deviceName macAddress
         ipv4Address "" ipv4Gateway ipv6Gateway blockIMDS s0) = Ok ctx ->
  fst (Dhcp.newSetupNamespaceClosure nl ex deviceName ipv4Address "" s0) = Ok closure ->
  (exists evs r eniLink rest,
      logs (Static.setupNamespaceClosureContext_run ParseCIDR ctx) s evs r /\
      ipv4_only_calls ctx ParseCIDR eniLink = (map ev_call evs ++ rest)%list) /\
  (exists evs r eniLink rest,
      logs (Dhcp.setupNamespaceClosure_run closure) s evs r /\
      dhcp_ipv4_only_calls closure eniLink = (map ev_call evs ++ rest)%list).
Proof.
  intros Hs Hd. split.
  - apply static_run_ipv4_only.
    exact (proj1 (static_new_empty_ipv6 _ _ _ _ _ _ _ _ _ _ _ _ Hs)).
  - apply dhcp_run_ipv4_only.
    exact (dhcp_new_empty_ipv6 _ _ _ _ _ _ _ Hd).
Qed.

Lemma no_ipv6_step_when_ipv6_address_empty_witness :
  (exists evs r eniLink rest,
      logs (Static.setupNamespaceClosureContext_run Fake.ParseCIDR Fake.ipv4Only)
           (Fake.start Fake.kernel) evs r /\
      ipv4_only_calls Fake.ipv4Only Fake.ParseCIDR eniLink
      = (map ev_call evs ++ rest)%list) /\
  (exists evs r eniLink rest,
      logs (Dhcp.setupNamespaceClosure_run Fake.dhcpIpv4Only)
           (Fake.start Fake.kernel) evs r /\
      dhcp_ipv4_only_calls Fake.dhcpIpv4Only eniLink = (map ev_call evs ++ rest)%list).
Proof.
  apply (no_ipv6_step_when_ipv6_address_empty Fake.Kernel Fake.ParseIP Fake.ParseCIDR
           (Fake.netLink false) Fake.exec "eth0" "eni1" "02:00:00:00:00:01"
           "10.0.1.5/24" "10.0.1.1" "not-an-ip" true
           (Fake.start Fake.kernel) (Fake.start Fake.kernel)).
  - reflexivity.
  - reflexivity.
Defined.

(** C10. With an empty IPv6 address string the construction of either
    setup context does not look at the IPv6 gateway string: whatever that
    string is, construction succeeds as soon as the IPv4 inputs parse,
    after the single parse of the IPv4 address, and gives the same
    context, one without IPv6 address or gateway, whose [run] takes no
    IPv6 step. *)
Theorem empty_ipv6_address_ignores_ipv6_gateway
    (W : Type) (ParseIP : string -> IP) (nl : NetLink W) (ex : Exec W)
    (ifName deviceName macAddress ipv4Address : string)
    (ipv4Gateway ipv6Gateway : string) (blockIMDS : bool) (s : St W)
    (a : Addr) :
  ParseAddr nl ipv4Address = Ok a ->
  ParseIP ipv4Gateway <> [] ->
  let ctx := Static.mkSetup nl ifName deviceName macAddress a None
               (ParseIP ipv4Gateway) [] blockIMDS in
  let closure := Dhcp.mkSetup nl ex deviceName a None in
  let s' := mkSt (world s)
                 (calls s ++ [mkEvent (CParseAddr ipv4Address) (RAddr a)]) in
  Static.newSetupNamespaceClosureContext ParseIP nl ifName deviceName macAddress
    ipv4Address "" ipv4Gateway ipv6Gateway blockIMDS s = (Ok ctx, s') /\
  (forall other,
      Static.newSetupNamespaceClosureContext ParseIP nl ifName deviceName macAddress
        ipv4Address "" ipv4Gateway other blockIMDS s
      = Static.newSetupNamespaceClosureContext ParseIP nl ifName deviceName macAddress
          ipv4Address "" ipv4Gateway ipv6Gateway blockIMDS s) /\
  Dhcp.newSetupNamespaceClosure nl ex deviceName ipv4Address "" s = (Ok closure, s') /\
  (forall ParseCIDR s1, exists evs r eniLink rest,
      logs (Static.setupNamespaceClosureContext_run ParseCIDR ctx) s1 evs r /\
      ipv4_only_calls ctx ParseCIDR eniLink = (map ev_call evs ++ rest)%list) /\
  (forall s1, exists evs r eniLink rest,
      logs (Dhcp.setupNamespaceClosure_run closure) s1 evs r /\
      dhcp_ipv4_only_calls closure eniLink = (map ev_call evs ++ rest)%list).
Proof.
  intros Ha Hg ctx closure s'.
  split; [| split; [| split; [| split]]].
  - unfold Static.newSetupNamespaceClosureContext, do_ParseAddr, invoke, bind, ret.
    rewrite Ha. simpl. subst ctx s'.
    destruct (ParseIP ipv4Gateway); [contradiction | reflexivity].
  - reflexivity.
  - unfold Dhcp.newSetupNamespaceClosure, do_ParseAddr, invoke, bind, ret.
    rewrite Ha. reflexivity.
  - intros ParseCIDR s1. now apply static_run_ipv4_only.
  - intros s1. now apply dhcp_run_ipv4_only.
Qed.

Lemma empty_ipv6_address_ignores_ipv6_gateway_witness :
  let nl := Fake.netLink false in
  let ctx := Static.mkSetup nl "eth0" "eni1" "02:00:00:00:00:01" Fake.addr4 None
               (Fake.ParseIP "10.0.1.1") [] true in
  let closure := Dhcp.mkSetup nl Fake.exec "eni1" Fake.addr4 None in
  let s' := mkSt (world (Fake.start Fake.kernel))
                 (calls (Fake.start Fake.kernel)
                  ++ [mkEvent (CParseAddr "10.0.1.5/24") (RAddr Fake.addr4)]) in
  Static.newSetupNamespaceClosureContext Fake.ParseIP nl "eth0" "eni1"
    "02:00:00:00:00:01" "10.0.1.5/24" "" "10.0.1.1" "not-an-ip" true
    (Fake.start Fake.kernel) = (Ok ctx, s') /\
  (forall other,
      Static.newSetupNamespaceClosureContext Fake.ParseIP nl "eth0" "eni1"
        "02:00:00:00:00:01" "10.0.1.5/24" "" "10.0.1.1" other true
        (Fake.start Fake.kernel)
      = Static.newSetupNamespaceClosureContext Fake.ParseIP nl "eth0" "eni1"
          "02:00:00:00:00:01" "10.0.1.5/24" "" "10.0.1.1" "not-an-ip" true
          (Fake.start Fake.kernel)) /\
  Dhcp.newSetupNamespaceClosure nl Fake.exec "eni1" "10.0.1.5/24" ""
    (Fake.start Fake.kernel) = (Ok closure, s') /\
  (forall ParseCIDR s1, exists evs r eniLink rest,
      logs (Static.setupNamespaceClosureContext_run ParseCIDR ctx) s1 evs r /\
      ipv4_only_calls ctx ParseCIDR eniLink = (map ev_call evs ++ rest)%list) /\
  (forall s1, exists evs r eniLink rest,
      logs (Dhcp.setupNamespaceClosure_run closure) s1 evs r /\
      dhcp_ipv4_only_calls closure eniLink = (map ev_call evs ++ rest)%list).
Proof.
  apply (empty_ipv6_address_ignores_ipv6_gateway Fake.Kernel Fake.ParseIP
           (Fake.netLink false) Fake.exec "eth0" "eni1" "02:00:00:00:00:01"
           "10.0.1.5/24" "10.0.1.1" "not-an-ip" true (Fake.start Fake.kernel)
           Fake.addr4).
  - reflexivity.
  - discriminate.
Defined.

(** ** Teardown of the static-address variant *)

(** C8. The teardown of the static-address variant returns nil for every
    context and every state of the world, and performs no operation: the
    world and the call log are left as they were. *)
Theorem static_teardown_is_noop
    (W : Type) (closureContext : Static.teardownNamespaceClosureContext W) (s : St W) :
  Static.teardownNamespaceClosureContext_run closureContext s = (None, s) /\
  logs (Static.teardownNamespaceClosureContext_run closureContext) s [] None.
Proof.
  split; [reflexivity | apply logs_ret].
Qed.

(** ** Lookup by hardware address *)

Lemma firstLinkWithMAC_Some (target : string) (links : list Link) (link : Link) :
  firstLinkWithMAC target links = Some link <-> firstMatch target links link.
Proof.
  unfold firstMatch. induction links as [| l rest IH]; simpl.
  - split; [discriminate |]. intros (pre & post & H & _). now destruct pre.
  - destruct (String.eqb_spec (HardwareAddr_String (Link_HardwareAddr l)) target)
      as [Heq | Hne].
    + split.
      * intros [= <-]. exists [], rest. repeat split; auto.
      * intros (pre & post & H & Hpre & Hm). destruct pre as [| p pre].
        -- simpl in H. now injection H as <- _.
        -- simpl in H. injection H as <- _. inversion Hpre; subst. contradiction.
    + rewrite IH. split.
      * intros (pre & post & -> & Hpre & Hm). exists (l :: pre), post.
        repeat split; auto.
      * intros (pre & post & H & Hpre & Hm). destruct pre as [| p pre].
        -- simpl in H. injection H as <- _. contradiction.
        -- simpl in H. injection H as <- ->. inversion Hpre; subst.
           now exists pre, post.
Qed.

Lemma firstLinkWithMAC_None (target : string) (links : list Link) :
  firstLinkWithMAC target links = None <->
  Forall (fun l => HardwareAddr_String (Link_HardwareAddr l) <> target) links.
Proof.
  induction links as [| l rest IH]; simpl.
  - split; [constructor | reflexivity].
  - destruct (String.eqb_spec (HardwareAddr_String (Link_HardwareAddr l)) target)
      as [Heq | Hne].
    + split; [discriminate |]. intros H. inversion H; subst. contradiction.
    + rewrite IH. split.
      * intros H. now constructor.
      * intros H. now inversion H.
Qed.

Lemma getLinkByHardwareAddress_logs
    (W : Type) (nl : NetLink W) (hw : HardwareAddr) (s : St W) :
  logs (getLinkByHardwareAddress nl hw) s
       [mkEvent CLinkList (resp_of_result RLinks (fst (LinkList nl (world s))))]
       (match fst (LinkList nl (world s)) with
        | Err e => Err e
        | Ok links =>
            match firstLinkWithMAC (HardwareAddr_String hw) links with
            | Some link => Ok link
            | None => Err linkWithMACNotFoundError
            end
        end).
Proof.
  unfold getLinkByHardwareAddress, do_LinkList.
  apply (@logs_bind _ _ _ _ _ _ _ _ [] _ (logs_invoke CLinkList _ _ s)).
  destruct (fst (LinkList nl (world s))) as [links | e]; [| apply logs_ret].
  destruct (firstLinkWithMAC (HardwareAddr_String hw) links); apply logs_ret.
Qed.

(** C6. [getLinkByHardwareAddress] lists the links once and returns the
    first link whose hardware address prints as the target does; when no
    link matches it returns the device-not-found error; when exactly one
    link matches, that link is returned whatever the other links are. *)
Theorem lookup_by_hardware_address_first_match
    (W : Type) (nl : NetLink W) (hw : HardwareAddr) (s : St W)
    (links : list Link) (w' : W) :
  LinkList nl (world s) = (Ok links, w') ->
  let target := HardwareAddr_String hw in
  let matches l := HardwareAddr_String (Link_HardwareAddr l) = target in
  let found := fst (getLinkByHardwareAddress nl hw s) in
  logs (getLinkByHardwareAddress nl hw) s [mkEvent CLinkList (RLinks links)] found /\
  (forall link, firstMatch target links link -> found = Ok link) /\
  (Forall (fun l => ~ matches l) links -> found = Err linkWithMACNotFoundError) /\
  (forall link,
      In link links -> matches link ->
      (forall other, In other links -> matches other -> other = link) ->
      found = Ok link).
Proof.
  intros HL target matches found.
  pose proof (getLinkByHardwareAddress_logs W nl hw s) as Hlog.
  rewrite HL in Hlog. simpl in Hlog.
  assert (Hfound : found = match firstLinkWithMAC target links with
                           | Some link => Ok link
                           | None => Err linkWithMACNotFoundError
                           end) by apply Hlog.
  split; [| split; [| split]].
  - rewrite Hfound. exact Hlog.
  - intros link Hm. apply firstLinkWithMAC_Some in Hm.
    rewrite Hfound. fold target. now rewrite Hm.
  - intros Hn. apply firstLinkWithMAC_None in Hn.
    rewrite Hfound. now rewrite Hn.
  - intros link Hin Hm Huniq. rewrite Hfound.
    destruct (firstLinkWithMAC target links) as [l |] eqn:Hf.
    + apply firstLinkWithMAC_Some in Hf. destruct Hf as (pre & post & -> & _ & Hl).
      f_equal. apply Huniq; [| exact Hl].
      apply in_or_app. right. now left.
    + apply firstLinkWithMAC_None in Hf.
      rewrite Forall_forall in Hf. now destruct (Hf link Hin).
Qed.

Lemma lookup_by_hardware_address_first_match_witness :
  let nl := Fake.netLink false in
  let s := Fake.start Fake.kernel in
  let links := [Fake.eni1; Fake.eni2] in
  let target := HardwareAddr_String Fake.mac2 in
  let matches l := HardwareAddr_String (Link_HardwareAddr l) = target in
  let found := fst (getLinkByHardwareAddress nl Fake.mac2 s) in
  logs (getLinkByHardwareAddress nl Fake.mac2) s
       [mkEvent CLinkList (RLinks links)] found /\
  (forall link, firstMatch target links link -> found = Ok link) /\
  (Forall (fun l => ~ matches l) links -> found = Err linkWithMACNotFoundError) /\
  (forall link,
      In link links -> matches link ->
      (forall other, In other links -> matches other -> other = link) ->
      found = Ok link).
Proof.
  apply (lookup_by_hardware_address_first_match Fake.Kernel (Fake.netLink false)
           Fake.mac2 (Fake.start Fake.kernel) [Fake.eni1; Fake.eni2] Fake.kernel).
  reflexivity.
Defined.

(** ** The DHCP-leased variant *)

(** C4. For every device name the DHCP setup runs the dhclient command
    with exactly the arguments -q -lf <lease file> -pf <pid file> <device>
    for IPv4 and -q -6 -lf <lease file> -pf <pid file> <device> for IPv6,
    the files being the fixed prefixes followed by a dash, the device
    name and .leases or .pid.  [run] takes its steps in order on the
    device found, the IPv4 launch with the IPv4 list right after the
    link is up, the IPv6 launch with the IPv6 list right after a
    successful IPv4 launch when IPv6 is configured: when no netlink call
    fails the IPv4 command is started, a nil result means that exactly
    the IPv4 command, then the IPv6 command if configured, were started,
    and no other command is ever started. *)
Theorem dhclient_arguments
    (W : Type) (closure : Dhcp.setupNamespaceClosure W) (s : St W) :
  let d := Dhcp.deviceName closure in
  let v4 := [ "-q"; "-lf"; "/var/lib/dhclient/ns-dhclient4-" ++ d ++ ".leases";
              "-pf"; "/var/run/ns-dhclient4-" ++ d ++ ".pid"; d ] in
  let v6 := [ "-q"; "-6"; "-lf"; "/var/lib/dhclient/ns-dhclient6-" ++ d ++ ".leases";
              "-pf"; "/var/run/ns-dhclient6-" ++ d ++ ".pid"; d ] in
  let launch4 := CCombinedOutput "dhclient" v4 in
  let launch6 := CCombinedOutput "dhclient" v6 in
  let is_launch := fun c => match c with CCombinedOutput _ _ => true | _ => false end in
  Dhcp.constructDHClientV4Args d = v4 /\
  Dhcp.constructDHClientV6Args d = v6 /\
  Dhcp.constructDHClientLeasePIDFilePathIPV4 "eth1" = "/var/run/ns-dhclient4-eth1.pid" /\
  (exists out err,
      logs (Dhcp.startDHClientV4 closure) s
           [mkEvent launch4 (ROutput out err)]
           (match err with
            | Some e => Some (Wrap e (Dhcp.msg_start_dhclient "ipv4" v4 out))
            | None => None
            end)) /\
  (exists out err,
      logs (Dhcp.startDHClientV6 closure) s
           [mkEvent launch6 (ROutput out err)]
           (match err with
            | Some e => Some (Wrap e (Dhcp.msg_start_dhclient "ipv6" v6 out))
            | None => None
            end)) /\
  (exists evs r eniLink,
      logs (Dhcp.setupNamespaceClosure_run closure) s evs r /\
      steps_outcome
        ([ mkDhcpStep (CLinkByName d) (fails_with (Dhcp.msg_get_link d));
           mkDhcpStep (CAddrAdd eniLink (Dhcp.ipv4Addr closure))
                      (fails_with Dhcp.msg_add_ipv4) ]
         ++ match Dhcp.ipv6Addr closure with
            | Some ipv6 =>
                [ mkDhcpStep (CAddrAdd eniLink ipv6) (fails_with Dhcp.msg_add_ipv6) ]
            | None => []
            end
         ++ [ mkDhcpStep (CLinkSetUp eniLink) (fails_with Dhcp.msg_set_up);
              mkDhcpStep launch4 (dhclient_fails "ipv4" v4) ]
         ++ match Dhcp.ipv6Addr closure with
            | Some _ => [ mkDhcpStep launch6 (dhclient_fails "ipv6" v6) ]
            | None => []
            end)%list
        evs r /\
      let launched := filter is_launch (map ev_call evs) in
      (launched = [] \/ launched = [launch4] \/
       (Dhcp.ipv6Addr closure <> None /\ launched = [launch4; launch6])) /\
      (Forall (fun ev => forall e, ev_resp ev <> RErr e) evs ->
       hd_error launched = Some launch4) /\
      (forall out,
          In (mkEvent launch4 (ROutput out None)) evs ->
          Dhcp.ipv6Addr closure <> None ->
          launched = [launch4; launch6]) /\
      (r = None ->
       launched = launch4 :: match Dhcp.ipv6Addr closure with
                             | Some _ => [launch6]
                             | None => []
                             end)).
Proof.
  intros d v4 v6 launch4 launch6 is_launch.
  split; [reflexivity |]. split; [reflexivity |]. split; [reflexivity |].
  split; [| split].
  - unfold Dhcp.startDHClientV4, do_CombinedOutput, bind, invoke, ret, logs.
    fold d. change (Dhcp.constructDHClientV4Args d) with v4.
    destruct (CombinedOutput (Dhcp.exec closure) Dhcp.dhclientExecutableName v4
                (world s)) as [[out [e |]] w]; simpl;
      [exists out, (Some e) | exists out, None]; now split.
  - unfold Dhcp.startDHClientV6, do_CombinedOutput, bind, invoke, ret, logs.
    fold d. change (Dhcp.constructDHClientV6Args d) with v6.
    destruct (CombinedOutput (Dhcp.exec closure) Dhcp.dhclientExecutableName v6
                (world s)) as [[out [e |]] w]; simpl;
      [exists out, (Some e) | exists out, None]; now split.
  - subst d v4 v6 launch4 launch6 is_launch.
    unfold Dhcp.setupNamespaceClosure_run, Dhcp.startDHClientV4, Dhcp.startDHClientV6,
      logs, andThen, orWrap, bind, do_LinkByName, do_AddrAdd, do_LinkSetUp,
      do_CombinedOutput, invoke, ret.
    destruct (LinkByName (Dhcp.netLink closure) (Dhcp.deviceName closure) (world s))
      as [[eniLink | e] w]; simpl.
    2:{ eexists. eexists. exists (mkLink 0 "" []).
        split; [log_done |]. split; [apply steps_failed; reflexivity |].
        cbv zeta. simpl. split; [now left |]. split; [| split].
        - intros HF. exfalso. no_error_answer.
        - intros out [Hin | []] _. discriminate.
        - discriminate. }
    destruct (Dhcp.ipv6Addr closure) as [ipv6 |]; repeat answer;
      (eexists; eexists; exists eniLink;
       split; [log_done |]; split; [simpl; outcome_done |];
       cbv zeta; simpl;
       split;
       [ first [ left; reflexivity
               | right; left; reflexivity
               | right; right; split; [discriminate | reflexivity] ] |];
       split; [intros HF; first [reflexivity | exfalso; no_error_answer] |];
       split;
       [ intros out Hin Hne;
         first [ reflexivity
               | now destruct Hne
               | exfalso;
                 repeat (destruct Hin as [Hin | Hin]; [congruence |]);
                 exact Hin ]
       | intros Hr; first [discriminate Hr | reflexivity] ]).
Qed.

Lemma stopDHClient_outcome
    (W : Type) (closure : Dhcp.teardownNamespaceClosure W) (pidFilePath : string)
    (s : St W) :
  exists evs r,
    logs (Dhcp.stopDHClient closure pidFilePath) s evs r /\
    stop_outcome pidFilePath evs r.
Proof.
  unfold Dhcp.stopDHClient, logs, orWrap, bind, do_ReadFile, do_FindProcess, do_Kill,
    invoke, ret.
  destruct (ReadFile (Dhcp.ioutil closure) pidFilePath (world s))
    as [[contents | e] w1]; simpl.
  2:{ eexists; eexists; split; [log_done | apply stop_read_failed]. }
  destruct (Atoi (TrimSpace (string_of_list_byte contents))) as [pid | e] eqn:Hpid;
    simpl.
  2:{ eexists; eexists; split; [log_done | now apply stop_parse_failed]. }
  destruct (FindProcess (Dhcp.os closure) pid w1) as [[process | e] w2]; simpl.
  2:{ eexists; eexists; split; [log_done | now apply stop_find_failed]. }
  destruct (Kill (Dhcp.os closure) process w2) as [[e |] w3]; simpl.
  - eexists; eexists; split; [log_done | now apply stop_kill_failed].
  - eexists; eexists; split; [log_done | now apply stop_killed].
Qed.

(** C3. The DHCP teardown resolves the device by hardware address, reads
    the IPv4 PID file of the resolved device name, parses its trimmed
    contents as an integer, gets a handle for that process and kills it;
    a failure at the resolve, read, parse, handle or kill stage is
    returned wrapped in the message of its stage; the IPv6 stop, on the
    IPv6 PID file, is made only when the flag is set and the IPv4 stop
    succeeded; nil is returned only when every required stop succeeded.
    Contents that trim to abc, such as abc followed by a newline, are
    no integer: the stop fails at the parse stage. *)
Theorem dhcp_teardown_stages
    (W : Type) (closure : Dhcp.teardownNamespaceClosure W) (s : St W) :
  (exists evs r,
      logs (Dhcp.teardownNamespaceClosure_run closure) s evs r /\
      teardown_outcome closure evs r) /\
  (forall pidFilePath s1, exists evs r,
      logs (Dhcp.stopDHClient closure pidFilePath) s1 evs r /\
      stop_outcome pidFilePath evs r) /\
  Atoi (TrimSpace ("abc" ++ newline)) = Err (NumError "Atoi" "abc" ErrSyntax) /\
  (forall pidFilePath s1 contents w1,
      ReadFile (Dhcp.ioutil closure) pidFilePath (world s1) = (Ok contents, w1) ->
      TrimSpace (string_of_list_byte contents) = "abc" ->
      logs (Dhcp.stopDHClient closure pidFilePath) s1
           [ mkEvent (CReadFile pidFilePath) (RBytes contents) ]
           (Some (Wrap (NumError "Atoi" "abc" ErrSyntax)
                       (Dhcp.msg_parse_pid pidFilePath)))).
Proof.
  split; [| split; [| split]].
  2:{ intros p s1. apply stopDHClient_outcome. }
  2:{ reflexivity. }
  2:{ intros p s1 contents w1 Hread Htrim.
      unfold Dhcp.stopDHClient, logs, bind, do_ReadFile, invoke, ret.
      rewrite Hread. simpl. rewrite Htrim. simpl. now split. }
  unfold Dhcp.teardownNamespaceClosure_run.
  pose proof (getLinkByHardwareAddress_logs W (Dhcp.td_netLink closure)
                (Dhcp.hardwareAddr closure) s) as Hget.
  set (target := HardwareAddr_String (Dhcp.hardwareAddr closure)) in *.
  destruct (fst (LinkList (Dhcp.td_netLink closure) (world s))) as [links | e];
    simpl in Hget.
  2:{ eexists; eexists; split.
      - apply (@logs_bind _ _ _ _ _ _ _ _ [] _ Hget). apply logs_ret.
      - apply teardown_list_failed. }
  destruct (firstLinkWithMAC target links) as [link |] eqn:Hfirst.
  2:{ eexists; eexists; split.
      - apply (@logs_bind _ _ _ _ _ _ _ _ [] _ Hget). apply logs_ret.
      - apply teardown_not_found. now apply firstLinkWithMAC_None. }
  apply firstLinkWithMAC_Some in Hfirst.
  set (s1 := snd (getLinkByHardwareAddress (Dhcp.td_netLink closure)
                    (Dhcp.hardwareAddr closure) s)).
  destruct (stopDHClient_outcome W closure
              (Dhcp.constructDHClientLeasePIDFilePathIPV4 (Name link)) s1)
    as (evs4 & [e4 |] & Hl4 & Ho4).
  { exists (mkEvent CLinkList (RLinks links) :: evs4)%list, (Some e4). split.
    - apply (logs_bind _ Hget). apply logs_andThen_stop. exact Hl4.
    - eapply teardown_stop4_failed; eassumption. }
  destruct (Dhcp.stopDHClient6 closure) eqn:H6.
  - set (s2 := snd (Dhcp.stopDHClient closure
                      (Dhcp.constructDHClientLeasePIDFilePathIPV4 (Name link)) s1)).
    destruct (stopDHClient_outcome W closure
                (Dhcp.constructDHClientLeasePIDFilePathIPV6 (Name link)) s2)
      as (evs6 & [e6 |] & Hl6 & Ho6).
    + exists (mkEvent CLinkList (RLinks links) :: evs4 ++ evs6)%list, (Some e6).
      split.
      * apply (logs_bind _ Hget). apply (@logs_andThen_go _ _ _ _ _ _ _ Hl4).
        apply logs_andThen_stop. exact Hl6.
      * eapply teardown_stop6; eassumption.
    + exists (mkEvent CLinkList (RLinks links) :: evs4 ++ evs6)%list, None.
      split.
      * apply (logs_bind _ Hget). apply (@logs_andThen_go _ _ _ _ _ _ _ Hl4).
        rewrite <- (app_nil_r evs6). apply (@logs_andThen_go _ _ _ _ _ _ _ Hl6). apply logs_ret.
      * eapply teardown_stop6; eassumption.
  - exists (mkEvent CLinkList (RLinks links) :: evs4)%list, None. split.
    + apply (logs_bind _ Hget). rewrite <- (app_nil_r evs4).
      apply (@logs_andThen_go _ _ _ _ _ _ _ Hl4).
      apply (@logs_andThen_go W (ret None) (ret None) _ [] [] None); apply logs_ret.
    + eapply teardown_stop4_only; eassumption.
Qed.

Lemma dhcp_teardown_stages_witness :
  let pidFilePath := "/var/run/ns-dhclient4-eni2.pid" in
  logs (Dhcp.stopDHClient (Fake.dhcpTeardown Fake.mac2 false) pidFilePath)
       (Fake.start Fake.kernel)
       [ mkEvent (CReadFile pidFilePath)
                 (RBytes (list_byte_of_string ("abc" ++ newline))) ]
       (Some (Wrap (NumError "Atoi" "abc" ErrSyntax)
                   (Dhcp.msg_parse_pid pidFilePath))).
Proof.
  intros pidFilePath.
  destruct (dhcp_teardown_stages Fake.Kernel (Fake.dhcpTeardown Fake.mac2 false)
              (Fake.start Fake.kernel)) as (_ & _ & _ & Habc).
  apply (Habc pidFilePath (Fake.start Fake.kernel)
              (list_byte_of_string ("abc" ++ newline)) Fake.kernel).
  - reflexivity.
  - reflexivity.
Defined.

(** ** Runs on the small kernel *)

Example TrimSpace_pid : TrimSpace (" 4242" ++ newline) = "4242".
Proof. reflexivity. Qed.

Example TrimSpace_no_break_space :
  TrimSpace (string_of_list_byte [xc2; xa0; x37; xe2; x80; xa8]) = "7".
Proof. reflexivity. Qed.

Example Atoi_pid : Atoi "4242" = Ok 4242.
Proof. reflexivity. Qed.

Example Atoi_bounds :
  Atoi "-9223372036854775808" = Ok (- 2 ^ 63) /\
  Atoi "9223372036854775808" = Err (NumError "Atoi" "9223372036854775808" ErrRange) /\
  Atoi "" = Err (NumError "Atoi" "" ErrSyntax) /\
  Atoi "42 " = Err (NumError "Atoi" "42 " ErrSyntax).
Proof. repeat split. Qed.

Example HardwareAddr_String_mac : HardwareAddr_String Fake.mac1 = "02:00:00:00:00:01".
Proof. reflexivity. Qed.

(** Device eni1, address 10.0.1.5/24, gateway 10.0.1.1, no IPv6, metadata
    blocked: lookup, rename, address, link up, blackhole route, default
    route. *)
Example static_setup_ipv4_scenario :
  let out := Static.setupNamespaceClosureContext_run Fake.ParseCIDR Fake.ipv4Only
               (Fake.start Fake.kernel) in
  fst out = None /\
  map ev_call (calls (snd out)) =
    [ CLinkByName "eni1";
      CLinkSetName Fake.eni1 "eth0";
      CAddrAdd Fake.eni1 Fake.addr4;
      CLinkSetUp Fake.eni1;
      CRouteAdd (mkRoute 0 (Some Fake.imdsNetwork) [] RTN_BLACKHOLE);
      CRouteAdd (mkRoute 0 None (Fake.ParseIP "10.0.1.1") 0) ] /\
  Forall (fun ev => ev_resp ev = RNil) (tl (calls (snd out))).
Proof. repeat split; repeat constructor. Qed.

Example static_setup_ipv6_route_exists :
  fst (Static.setupNamespaceClosureContext_run Fake.ParseCIDR (Fake.dualStack false)
         (Fake.start Fake.kernel_with_ra_route)) = None.
Proof. reflexivity. Qed.

Example static_setup_ipv4_route_exists :
  fst (Static.setupNamespaceClosureContext_run Fake.ParseCIDR (Fake.dualStack false)
         (Fake.start (Fake.kernel_with [mkRoute 0 None (Fake.ParseIP "10.0.1.1") 0])))
  = Some (Wrap (Errno EEXIST) Static.msg_route_ipv4).
Proof. reflexivity. Qed.

Example static_setup_blackhole_route_exists :
  fst (Static.setupNamespaceClosureContext_run Fake.ParseCIDR (Fake.dualStack false)
         (Fake.start (Fake.kernel_with
                        [mkRoute 0 (Some Fake.imdsNetwork) [] RTN_BLACKHOLE])))
  = Some (Wrap (Errno EEXIST) Static.msg_block_imds).
Proof. reflexivity. Qed.

Example static_setup_wrapped_errno_not_tolerated :
  fst (Static.setupNamespaceClosureContext_run Fake.ParseCIDR (Fake.dualStack true)
         (Fake.start Fake.kernel_with_ra_route))
  = Some (Wrap (SyscallError "netlink" (Errno EEXIST)) Static.msg_route_ipv6).
Proof. reflexivity. Qed.

Example static_new_malformed_gateway :
  Static.newSetupNamespaceClosureContext Fake.ParseIP (Fake.netLink false)
    "eth0" "eni1" "02:00:00:00:00:01" "10.0.1.5/24" "" "not-an-ip" "" true
    (Fake.start Fake.kernel)
  = (Err (New Static.msg_parse_ipv4_gateway),
     mkSt Fake.kernel [mkEvent (CParseAddr "10.0.1.5/24") (RAddr Fake.addr4)]).
Proof. reflexivity. Qed.

Example dhcp_setup_ipv4_commands :
  map ev_call (calls (snd (Dhcp.setupNamespaceClosure_run Fake.dhcpIpv4Only
                             (Fake.start Fake.kernel)))) =
    [ CLinkByName "eni1";
      CAddrAdd Fake.eni1 Fake.addr4;
      CLinkSetUp Fake.eni1;
      CCombinedOutput "dhclient"
        [ "-q"; "-lf"; "/var/lib/dhclient/ns-dhclient4-eni1.leases";
          "-pf"; "/var/run/ns-dhclient4-eni1.pid"; "eni1" ] ].
Proof. reflexivity. Qed.

Example dhcp_teardown_kills_dhclient :
  let out := Dhcp.teardownNamespaceClosure_run (Fake.dhcpTeardown Fake.mac1 false)
               (Fake.start Fake.kernel) in
  fst out = None /\
  Fake.procs (world (snd out)) = [] /\
  map ev_call (calls (snd out)) =
    [ CLinkList; CReadFile "/var/run/ns-dhclient4-eni1.pid";
      CFindProcess 4242; CKill (mkProcess 4242) ].
Proof. repeat split. Qed.

Example dhcp_teardown_garbled_pid_file :
  fst (Dhcp.teardownNamespaceClosure_run (Fake.dhcpTeardown Fake.mac2 false)
         (Fake.start Fake.kernel))
  = Some (Wrap (NumError "Atoi" "abc" ErrSyntax)
               (Dhcp.msg_parse_pid "/var/run/ns-dhclient4-eni2.pid")).
Proof. reflexivity. Qed.

Example dhcp_teardown_ipv6_pid_file_missing :
  let out := Dhcp.teardownNamespaceClosure_run (Fake.dhcpTeardown Fake.mac1 true)
               (Fake.start Fake.kernel) in
  fst out = Some (Wrap (PathError "open" "/var/run/ns-dhclient6-eni1.pid" (Errno 2))
                       (Dhcp.msg_read_pid "/var/run/ns-dhclient6-eni1.pid")) /\
  map ev_call (calls (snd out)) =
    [ CLinkList; CReadFile "/var/run/ns-dhclient4-eni1.pid";
      CFindProcess 4242; CKill (mkProcess 4242);
      CReadFile "/var/run/ns-dhclient6-eni1.pid" ].
Proof. repeat split. Qed.

Example dhcp_teardown_unknown_mac :
  fst (Dhcp.teardownNamespaceClosure_run
         (Fake.dhcpTeardown [x02; x00; x00; x00; x00; x03] true)
         (Fake.start Fake.kernel))
  = Some (Wrap linkWithMACNotFoundError
               (Dhcp.msg_get_device "02:00:00:00:00:03")).
Proof. reflexivity. Qed.

(* ================================================================== *)
(** * Further properties of the engine *)
(* ================================================================== *)

(** ** The DHCP setup follows its plan *)

Lemma steps_outcome_prefix (steps : list DhcpStep) (evs : list Event)
    (r : option error) :
  steps_outcome steps evs r ->
  exists rest, map dstep_call steps = (map ev_call evs ++ rest)%list.
Proof.
  induction 1 as [| st rest resp evs r _ _ [t IH] | st rest resp e _]; simpl.
  - now exists [].
  - exists t. now rewrite IH.
  - now exists (map dstep_call rest).
Qed.

Lemma steps_outcome_nil_iff (steps : list DhcpStep) (evs : list Event)
    (r : option error) :
  steps_outcome steps evs r ->
  (r = None <->
   Forall2 (fun st ev =>
              ev_call ev = dstep_call st /\ dstep_fails st (ev_resp ev) = None)
           steps evs).
Proof.
  induction 1 as [| st rest resp evs r Hok _ IH | st rest resp e Hf].
  - split; [constructor | reflexivity].
  - split.
    + intros Hr. constructor; [now split | now apply IH].
    + intros HF. inversion HF; subst. now apply IH.
  - split; [discriminate |].
    intros HF. inversion HF as [| ? ? ? ? [_ Hn] _]; subst.
    simpl in Hn. congruence.
Qed.

Lemma dhcp_run_outcome
    (W : Type) (closure : Dhcp.setupNamespaceClosure W) (s : St W) :
  exists evs r eniLink,
    logs (Dhcp.setupNamespaceClosure_run closure) s evs r /\
    (forall l rest,
        evs = mkEvent (CLinkByName (Dhcp.deviceName closure)) (RLink l) :: rest ->
        l = eniLink) /\
    steps_outcome (dhcp_plan closure eniLink) evs r.
Proof.
  unfold Dhcp.setupNamespaceClosure_run, Dhcp.startDHClientV4, Dhcp.startDHClientV6,
    dhcp_plan, logs, andThen, orWrap, bind, do_LinkByName, do_AddrAdd, do_LinkSetUp,
    do_CombinedOutput, invoke, ret.
  destruct (LinkByName (Dhcp.netLink closure) (Dhcp.deviceName closure) (world s))
    as [[eniLink | e] w]; simpl.
  2:{ eexists. eexists. exists (mkLink 0 "" []).
      split; [log_done |]. split; [intros l rest [=] |].
      apply steps_failed. reflexivity. }
  destruct (Dhcp.ipv6Addr closure); repeat answer;
    (eexists; eexists; exists eniLink;
     split; [log_done |]; split; [now intros l rest [= ->] |]; simpl; outcome_done).
Qed.

(** X1. The DHCP setup resolves the device by name, adds the IPv4
    address, adds the IPv6 address if one is configured, brings the link
    up, starts the IPv4 dhclient and, if IPv6 is configured, the IPv6
    dhclient: its call log takes these steps in this order on the device
    the lookup returned, the first failing step ends the log and its
    error is returned wrapped in the message of that step, and nil is
    returned exactly when every step was taken and succeeded. *)
Theorem dhcp_setup_runs_plan_in_order
    (W : Type) (closure : Dhcp.setupNamespaceClosure W) (s : St W) :
  exists evs r eniLink,
    logs (Dhcp.setupNamespaceClosure_run closure) s evs r /\
    (forall l rest,
        evs = mkEvent (CLinkByName (Dhcp.deviceName closure)) (RLink l) :: rest ->
        l = eniLink) /\
    steps_outcome (dhcp_plan closure eniLink) evs r /\
    (exists rest,
        map dstep_call (dhcp_plan closure eniLink) = (map ev_call evs ++ rest)%list) /\
    (r = None <->
     Forall2 (fun st ev =>
                ev_call ev = dstep_call st /\ dstep_fails st (ev_resp ev) = None)
             (dhcp_plan closure eniLink) evs).
Proof.
  destruct (dhcp_run_outcome W closure s) as (evs & r & eniLink & Hl & Htie & Ho).
  exists evs, r, eniLink.
  split; [exact Hl |]. split; [exact Htie |]. split; [exact Ho |]. split.
  - exact (steps_outcome_prefix _ _ _ Ho).
  - exact (steps_outcome_nil_iff _ _ _ Ho).
Qed.

(** ** What the constructors accept *)

(** X2. Construction of the static-address setup context succeeds
    exactly when the IPv4 address and gateway parse and, for a non-empty
    IPv6 address string, the IPv6 address and gateway parse too; the
    context then holds the names and the flag as given, the parsed
    addresses and gateways, and an IPv6 address only when the string was
    not empty.  Whatever the inputs, construction makes parse calls only
    and leaves the world as it was. *)
Theorem static_construction_result
    (W : Type) (ParseIP : string -> IP) (nl : NetLink W)
    (ifName deviceName macAddress ipv4Address ipv6Address : string)
    (ipv4Gateway ipv6Gateway : string) (blockIMDS : bool) (s : St W) :
  let out := Static.newSetupNamespaceClosureContext ParseIP nl ifName deviceName
               macAddress ipv4Address ipv6Address ipv4Gateway ipv6Gateway
               blockIMDS s in
  world (snd out) = world s /\
  (exists evs,
      calls (snd out) = (calls s ++ evs)%list /\
      Forall (fun ev => ev_call ev = CParseAddr ipv4Address \/
                        ev_call ev = CParseAddr ipv6Address) evs) /\
  (forall ctx,
      fst out = Ok ctx <->
      exists a4,
        ParseAddr nl ipv4Address = Ok a4 /\
        ParseIP ipv4Gateway <> [] /\
        ((ipv6Address = "" /\
          ctx = Static.mkSetup nl ifName deviceName macAddress a4 None
                  (ParseIP ipv4Gateway) [] blockIMDS) \/
         (ipv6Address <> "" /\
          exists a6,
            ParseAddr nl ipv6Address = Ok a6 /\
            ParseIP ipv6Gateway <> [] /\
            ctx = Static.mkSetup nl ifName deviceName macAddress a4 (Some a6)
                    (ParseIP ipv4Gateway) (ParseIP ipv6Gateway) blockIMDS))).
Proof.
  unfold Static.newSetupNamespaceClosureContext, do_ParseAddr, invoke, bind, ret.
  destruct (ParseAddr nl ipv4Address) as [a4 | e4] eqn:H4; simpl.
  2:{ split; [reflexivity |]. split.
      - eexists. split; [reflexivity |]. repeat (apply Forall_cons; [simpl; auto |]); apply Forall_nil.
      - intros ctx. split; [discriminate |]. intros (a & Ha & _). discriminate. }
  destruct (ParseIP ipv4Gateway) as [| b4 g4] eqn:Hg4; simpl.
  { split; [reflexivity |]. split.
    - eexists. split; [reflexivity |]. repeat (apply Forall_cons; [simpl; auto |]); apply Forall_nil.
    - intros ctx. split; [discriminate |]. intros (a & _ & Hg & _). now destruct Hg. }
  destruct (String.eqb_spec ipv6Address "") as [Hv6 | Hv6]; simpl.
  { split; [reflexivity |]. split.
    - eexists. split; [reflexivity |]. repeat (apply Forall_cons; [simpl; auto |]); apply Forall_nil.
    - intros ctx. split.
      + intros [= <-]. exists a4. split; [reflexivity |]. split; [discriminate |].
        left. now split.
      + intros (a & [= <-] & _ & [[_ ->] | [Hne _]]); [reflexivity | contradiction]. }
  destruct (ParseAddr nl ipv6Address) as [a6 | e6] eqn:H6; simpl.
  2:{ split; [reflexivity |]. split.
      - eexists. split; [now rewrite <- app_assoc |]. repeat (apply Forall_cons; [simpl; auto |]); apply Forall_nil.
      - intros ctx. split; [discriminate |].
        intros (a & _ & _ & [[He _] | (_ & a6 & Ha6 & _)]);
          [contradiction | discriminate]. }
  destruct (ParseIP ipv6Gateway) as [| b6 g6] eqn:Hg6; simpl.
  { split; [reflexivity |]. split.
    - eexists. split; [now rewrite <- app_assoc |]. repeat (apply Forall_cons; [simpl; auto |]); apply Forall_nil.
    - intros ctx. split; [discriminate |].
      intros (a & _ & _ & [[He _] | (_ & a6' & _ & Hg & _)]);
        [contradiction | now destruct Hg]. }
  split; [reflexivity |]. split.
  - eexists. split; [now rewrite <- app_assoc |]. repeat (apply Forall_cons; [simpl; auto |]); apply Forall_nil.
  - intros ctx. split.
    + intros [= <-]. exists a4. split; [reflexivity |]. split; [discriminate |].
      right. split; [assumption |]. exists a6.
      split; [reflexivity |]. split; [discriminate | reflexivity].
    + intros (a & [= <-] & _ & [[He _] | (_ & a6' & [= <-] & _ & ->)]);
        [contradiction | reflexivity].
Qed.

(** X3. Construction of the DHCP setup context succeeds exactly when the
    IPv4 address parses and, for a non-empty IPv6 address string, the
    IPv6 address parses; a failure carries the message of the address
    that did not parse; the context has an IPv6 address only when the
    string was not empty.  Construction makes parse calls only and leaves
    the world as it was. *)
Theorem dhcp_construction_result
    (W : Type) (nl : NetLink W) (ex : Exec W)
    (deviceName ipv4Address ipv6Address : string) (s : St W) :
  let out := Dhcp.newSetupNamespaceClosure nl ex deviceName ipv4Address ipv6Address s in
  world (snd out) = world s /\
  (exists evs,
      calls (snd out) = (calls s ++ evs)%list /\
      Forall (fun ev => ev_call ev = CParseAddr ipv4Address \/
                        ev_call ev = CParseAddr ipv6Address) evs) /\
  (forall closure,
      fst out = Ok closure <->
      exists a4,
        ParseAddr nl ipv4Address = Ok a4 /\
        ((ipv6Address = "" /\
          closure = Dhcp.mkSetup nl ex deviceName a4 None) \/
         (ipv6Address <> "" /\
          exists a6,
            ParseAddr nl ipv6Address = Ok a6 /\
            closure = Dhcp.mkSetup nl ex deviceName a4 (Some a6)))) /\
  (forall err,
      fst out = Err err <->
      (exists e, ParseAddr nl ipv4Address = Err e /\
                 err = Wrap e Dhcp.msg_parse_ipv4) \/
      (exists a4 e, ParseAddr nl ipv4Address = Ok a4 /\ ipv6Address <> "" /\
                    ParseAddr nl ipv6Address = Err e /\
                    err = Wrap e Dhcp.msg_parse_ipv6)).
Proof.
  unfold Dhcp.newSetupNamespaceClosure, do_ParseAddr, invoke, bind, ret.
  destruct (ParseAddr nl ipv4Address) as [a4 | e4] eqn:H4; simpl.
  2:{ split; [reflexivity |]. split; [| split].
      - eexists. split; [reflexivity |]. repeat (apply Forall_cons; [simpl; auto |]); apply Forall_nil.
      - intros c. split; [discriminate |]. intros (a & Ha & _). discriminate.
      - intros err. split.
        + intros [= <-]. left. now exists e4.
        + intros [(e & [= <-] & ->) | (a & e & Ha & _)]; [reflexivity | discriminate]. }
  destruct (String.eqb_spec ipv6Address "") as [Hv6 | Hv6]; simpl.
  { split; [reflexivity |]. split; [| split].
    - eexists. split; [reflexivity |]. repeat (apply Forall_cons; [simpl; auto |]); apply Forall_nil.
    - intros c. split.
      + intros [= <-]. exists a4. split; [reflexivity |]. left. now split.
      + intros (a & [= <-] & [[_ ->] | [Hne _]]); [reflexivity | contradiction].
    - intros err. split; [discriminate |].
      intros [(e & He & _) | (a & e & _ & Hne & _)]; [discriminate | contradiction]. }
  destruct (ParseAddr nl ipv6Address) as [a6 | e6] eqn:H6; simpl.
  - split; [reflexivity |]. split; [| split].
    + eexists. split; [now rewrite <- app_assoc |]. repeat (apply Forall_cons; [simpl; auto |]); apply Forall_nil.
    + intros c. split.
      * intros [= <-]. exists a4. split; [reflexivity |]. right.
        split; [assumption |]. now exists a6.
      * intros (a & [= <-] & [[He _] | (_ & a6' & [= <-] & ->)]);
          [contradiction | reflexivity].
    + intros err. split; [discriminate |].
      intros [(e & He & _) | (a & e & _ & _ & He & _)]; discriminate.
  - split; [reflexivity |]. split; [| split].
    + eexists. split; [now rewrite <- app_assoc |]. repeat (apply Forall_cons; [simpl; auto |]); apply Forall_nil.
    + intros c. split; [discriminate |].
      intros (a & _ & [[He _] | (_ & a6 & Ha6 & _)]); [contradiction | discriminate].
    + intros err. split.
      * intros [= <-]. right. exists a4, e6. now repeat split.
      * intros [(e & He & _) | (a & e & _ & _ & [= <-] & ->)];
          [discriminate | reflexivity].
Qed.

(** ** Lookup by hardware address, continued *)

Lemma unhex_hexDigit (b : byte) :
  unhex (hexDigit (Byte.to_N b / 16)) (hexDigit (Byte.to_N b mod 16)) = Some b.
Proof. destruct b; reflexivity. Qed.

Lemma hexPairs_inj (a b : list byte) : hexPairs a = hexPairs b -> a = b.
Proof.
  revert b. induction a as [| x a IH]; intros [| y b]; simpl; try discriminate.
  - reflexivity.
  - intros [= Hhi Hlo Hrest].
    pose proof (unhex_hexDigit x) as Hx. rewrite Hhi, Hlo, unhex_hexDigit in Hx.
    injection Hx as ->. f_equal. now apply IH.
Qed.

Lemma HardwareAddr_String_inj (a b : HardwareAddr) :
  HardwareAddr_String a = HardwareAddr_String b <-> a = b.
Proof.
  split; [| now intros ->].
  unfold HardwareAddr_String. intros H. apply hexPairs_inj.
  destruct a as [| x a], b as [| y b]; simpl in *; try discriminate.
  - reflexivity.
  - now rewrite H.
Qed.

(** X4. [getLinkByHardwareAddress] makes one call, the listing of the
    links, and leaves the world as that call left it.  When the listing
    fails, its error is returned as it is, not the device-not-found
    error.  When it succeeds, a link is returned exactly when it is the
    first whose hardware address prints as the target does. *)
Theorem lookup_by_hardware_address_result
    (W : Type) (nl : NetLink W) (hw : HardwareAddr) (s : St W) :
  let listed := fst (LinkList nl (world s)) in
  let found := fst (getLinkByHardwareAddress nl hw s) in
  logs (getLinkByHardwareAddress nl hw) s
       [mkEvent CLinkList (resp_of_result RLinks listed)] found /\
  world (snd (getLinkByHardwareAddress nl hw s)) = snd (LinkList nl (world s)) /\
  (forall e, listed = Err e -> found = Err e) /\
  (forall links link,
      listed = Ok links ->
      (found = Ok link <-> firstMatch (HardwareAddr_String hw) links link)).
Proof.
  intros listed found.
  pose proof (getLinkByHardwareAddress_logs W nl hw s) as Hlog.
  fold listed in Hlog.
  assert (Hfound : found = match listed with
                           | Err e => Err e
                           | Ok links =>
                               match firstLinkWithMAC (HardwareAddr_String hw) links with
                               | Some link => Ok link
                               | None => Err linkWithMACNotFoundError
                               end
                           end) by apply Hlog.
  split; [| split; [| split]].
  - rewrite Hfound. exact Hlog.
  - unfold getLinkByHardwareAddress, do_LinkList, bind, invoke, ret.
    destruct (LinkList nl (world s)) as [[links | e] w]; simpl; [| reflexivity].
    now destruct (firstLinkWithMAC (HardwareAddr_String hw) links).
  - intros e He. rewrite Hfound, He. reflexivity.
  - intros links link Hl. rewrite Hfound, Hl, <- firstLinkWithMAC_Some.
    destruct (firstLinkWithMAC (HardwareAddr_String hw) links);
      split; congruence.
Qed.

(** X5. Comparing the printed hardware addresses is comparing their
    bytes: the link [getLinkByHardwareAddress] returns is one of the
    listed links and has exactly the bytes of the target, no link before
    it has them, and the device-not-found error is returned exactly when
    no listed link has them. *)
Theorem lookup_by_hardware_address_compares_bytes
    (W : Type) (nl : NetLink W) (hw : HardwareAddr) (s : St W)
    (links : list Link) (w' : W) :
  LinkList nl (world s) = (Ok links, w') ->
  let found := fst (getLinkByHardwareAddress nl hw s) in
  (forall a b : HardwareAddr, HardwareAddr_String a = HardwareAddr_String b <-> a = b) /\
  (forall link,
      found = Ok link <->
      exists pre post,
        links = (pre ++ link :: post)%list /\
        Forall (fun l => Link_HardwareAddr l <> hw) pre /\
        Link_HardwareAddr link = hw) /\
  (found = Err linkWithMACNotFoundError <->
   Forall (fun l => Link_HardwareAddr l <> hw) links).
Proof.
  intros HL found.
  pose proof (getLinkByHardwareAddress_logs W nl hw s) as Hlog.
  rewrite HL in Hlog. simpl in Hlog.
  assert (Hfound : found = match firstLinkWithMAC (HardwareAddr_String hw) links with
                           | Some link => Ok link
                           | None => Err linkWithMACNotFoundError
                           end) by apply Hlog.
  assert (Hall : forall ls,
             Forall (fun l => HardwareAddr_String (Link_HardwareAddr l)
                              <> HardwareAddr_String hw) ls <->
             Forall (fun l => Link_HardwareAddr l <> hw) ls).
  { intros ls. rewrite !Forall_forall.
    split; intros H l Hin Heq; apply (H l Hin); now apply HardwareAddr_String_inj. }
  split; [exact HardwareAddr_String_inj |]. split.
  - intros link. rewrite Hfound.
    transitivity (firstLinkWithMAC (HardwareAddr_String hw) links = Some link).
    + destruct (firstLinkWithMAC (HardwareAddr_String hw) links); split; congruence.
    + rewrite firstLinkWithMAC_Some. unfold firstMatch.
      split; intros (pre & post & Hl & Hpre & Hm); exists pre, post;
        (split; [exact Hl |]); (split; [now apply Hall | now apply HardwareAddr_String_inj]).
  - rewrite Hfound, <- Hall, <- firstLinkWithMAC_None.
    destruct (firstLinkWithMAC (HardwareAddr_String hw) links); split; congruence.
Qed.

Lemma lookup_by_hardware_address_compares_bytes_witness :
  let links := [Fake.eni1; Fake.eni2] in
  let found := fst (getLinkByHardwareAddress (Fake.netLink false) Fake.mac2
                      (Fake.start Fake.kernel)) in
  (forall a b : HardwareAddr, HardwareAddr_String a = HardwareAddr_String b <-> a = b) /\
  (forall link,
      found = Ok link <->
      exists pre post,
        links = (pre ++ link :: post)%list /\
        Forall (fun l => Link_HardwareAddr l <> Fake.mac2) pre /\
        Link_HardwareAddr link = Fake.mac2) /\
  (found = Err linkWithMACNotFoundError <->
   Forall (fun l => Link_HardwareAddr l <> Fake.mac2) links).
Proof.
  apply (lookup_by_hardware_address_compares_bytes Fake.Kernel (Fake.netLink false)
           Fake.mac2 (Fake.start Fake.kernel) [Fake.eni1; Fake.eni2] Fake.kernel).
  reflexivity.
Defined.

(** ** Reading a PID file *)

Lemma isDigit_facts (c : byte) :
  isDigit c = true ->
  isSpace1 c = false /\ (Byte.to_N c <? 128)%N = true /\
  0 <= Z.of_N (Byte.to_N c) - 48 <= 9 /\ c <> x2b /\ c <> x2d.
Proof.
  destruct c; try discriminate; intros _;
    (split; [reflexivity |]); (split; [reflexivity |]);
    (split; [simpl; lia |]); split; discriminate.
Qed.

Lemma isSpace2_high (c1 c2 : byte) :
  isSpace2 c1 c2 = true ->
  (Byte.to_N c1 <? 128)%N = false /\ (Byte.to_N c2 <? 128)%N = false.
Proof.
  destruct c1; try discriminate; destruct c2; try discriminate; intros _; now split.
Qed.

Lemma isSpace3_high (c1 c2 c3 : byte) :
  isSpace3 c1 c2 c3 = true ->
  (Byte.to_N c1 <? 128)%N = false /\ (Byte.to_N c3 <? 128)%N = false.
Proof.
  destruct c1; try discriminate; destruct c2; try discriminate;
    destruct c3; try discriminate; intros _; now split.
Qed.

Section TrimFront.

Variable s2 : byte -> byte -> bool.
Variable s3 : byte -> byte -> byte -> bool.

(** The encodings [s2] and [s3] recognise start with a byte above 127. *)
Hypothesis s2_high : forall c c2, s2 c c2 = true -> (Byte.to_N c <? 128)%N = false.
Hypothesis s3_high : forall c c2 c3, s3 c c2 c3 = true -> (Byte.to_N c <? 128)%N = false.

Lemma trimFront_spaces (ws l : list byte) :
  forallb isSpace1 ws = true -> trimFront s2 s3 (ws ++ l) = trimFront s2 s3 l.
Proof.
  induction ws as [| c ws IH]; simpl; [reflexivity |].
  intros H. apply andb_prop in H as [Hc Hws]. rewrite Hc. now apply IH.
Qed.

Lemma trimFront_keeps (c : byte) (l : list byte) :
  isSpace1 c = false -> (Byte.to_N c <? 128)%N = true ->
  trimFront s2 s3 (c :: l) = c :: l.
Proof.
  intros H1 Hlow. simpl. rewrite H1.
  destruct l as [| c2 l]; [reflexivity |].
  destruct (s2 c c2) eqn:H2.
  { apply s2_high in H2. congruence. }
  destruct l as [| c3 l]; [reflexivity |].
  destruct (s3 c c2 c3) eqn:H3; [| reflexivity].
  apply s3_high in H3. congruence.
Qed.

End TrimFront.

Lemma TrimSpace_digits (ws1 ds ws2 : list byte) :
  forallb isSpace1 ws1 = true ->
  forallb isSpace1 ws2 = true ->
  ds <> [] ->
  forallb isDigit ds = true ->
  TrimSpace (string_of_list_byte (ws1 ++ ds ++ ws2)) = string_of_list_byte ds.
Proof.
  intros H1 H2 Hne Hd. unfold TrimSpace. f_equal.
  rewrite list_byte_of_string_of_list_byte.
  assert (Hin : forall c, In c ds -> isSpace1 c = false /\ (Byte.to_N c <? 128)%N = true).
  { intros c Hc. rewrite forallb_forall in Hd.
    destruct (isDigit_facts c (Hd c Hc)) as (Ha & Hb & _). now split. }
  assert (Hleft : TrimLeftSpace (ws1 ++ ds ++ ws2) = (ds ++ ws2)%list).
  { unfold TrimLeftSpace.
    rewrite trimFront_spaces by assumption.
    destruct ds as [| d ds']; [contradiction |]. simpl app.
    destruct (Hin d (or_introl eq_refl)) as [Ha Hb].
    apply trimFront_keeps; try assumption.
    - intros c c2 H. now apply isSpace2_high in H.
    - intros c c2 c3 H. now apply isSpace3_high in H. }
  rewrite Hleft. unfold TrimRightSpace. rewrite rev_app_distr.
  rewrite trimFront_spaces.
  2:{ rewrite forallb_forall in *. intros c Hc. apply H2. now apply in_rev. }
  destruct (rev ds) as [| d rd] eqn:Hrev.
  { destruct Hne. apply (f_equal (@rev byte)) in Hrev. now rewrite rev_involutive in Hrev. }
  assert (Hd' : In d ds). { apply in_rev. rewrite Hrev. now left. }
  destruct (Hin d Hd') as [Ha Hb].
  rewrite trimFront_keeps; try assumption.
  - rewrite <- Hrev. apply rev_involutive.
  - intros c c2 H. now apply isSpace2_high in H.
  - intros c c2 c3 H. now apply isSpace3_high in H.
Qed.

Lemma decimal_fold_grows (ds : list byte) (n : Z) :
  forallb isDigit ds = true -> 0 <= n ->
  n <= fold_left (fun n c => n * 10 + (Z.of_N (Byte.to_N c) - 48)) ds n.
Proof.
  revert n. induction ds as [| c ds IH]; simpl; intros n Hd Hn; [lia |].
  apply andb_prop in Hd as [Hc Hds].
  destruct (isDigit_facts c Hc) as (_ & _ & Hr & _).
  specialize (IH (n * 10 + (Z.of_N (Byte.to_N c) - 48)) Hds). lia.
Qed.

Lemma parseDigits_value (ds : list byte) (n : Z) :
  forallb isDigit ds = true -> 0 <= n ->
  fold_left (fun n c => n * 10 + (Z.of_N (Byte.to_N c) - 48)) ds n < 2 ^ 63 ->
  parseDigits ds n
  = Ok (fold_left (fun n c => n * 10 + (Z.of_N (Byte.to_N c) - 48)) ds n).
Proof.
  revert n. induction ds as [| c ds IH]; simpl; intros n Hd Hn Hlt; [reflexivity |].
  apply andb_prop in Hd as [Hc Hds].
  destruct (isDigit_facts c Hc) as (_ & _ & Hr & _).
  set (d := Z.of_N (Byte.to_N c) - 48) in *.
  pose proof (decimal_fold_grows ds (n * 10 + d) Hds ltac:(lia)) as Hg.
  assert (H63 : 2 ^ 63 = 9223372036854775808) by reflexivity.
  replace ((d <? 0) || (9 <? d)) with false
    by (symmetry; apply orb_false_intro; [apply Z.ltb_ge | apply Z.ltb_ge]; lia).
  unfold maxUint64.
  replace (2 ^ 64 - 1) with 18446744073709551615 by reflexivity.
  replace (18446744073709551615 / 10 + 1) with 1844674407370955162 by reflexivity.
  replace (1844674407370955162 <=? n) with false by (symmetry; apply Z.leb_gt; lia).
  replace (18446744073709551615 <? n * 10 + d) with false
    by (symmetry; apply Z.ltb_ge; lia).
  apply IH; [assumption | lia | assumption].
Qed.

Lemma Atoi_digits (ds : list byte) :
  ds <> [] ->
  forallb isDigit ds = true ->
  decimalValue ds < 2 ^ 63 ->
  Atoi (string_of_list_byte ds) = Ok (decimalValue ds).
Proof.
  intros Hne Hd Hlt. unfold Atoi.
  rewrite list_byte_of_string_of_list_byte.
  destruct ds as [| c r]; [contradiction |].
  pose proof Hd as Hd0. simpl in Hd0. apply andb_prop in Hd0 as [Hc _].
  destruct (isDigit_facts c Hc) as (_ & _ & _ & Hplus & Hminus).
  assert (Hneg : match c with x2d => true | _ => false end = false)
    by (destruct c; try reflexivity; now destruct Hminus).
  assert (Hdig : match c with x2b | x2d => r | _ => c :: r end = c :: r)
    by (destruct c; try reflexivity; [now destruct Hplus | now destruct Hminus]).
  rewrite Hneg, Hdig. unfold ParseUint.
  rewrite (parseDigits_value (c :: r) 0 Hd ltac:(lia) Hlt).
  fold (decimalValue (c :: r)). cbv zeta.
  assert (E : (2 ^ 63 <=? decimalValue (c :: r)) = false)
    by (apply Z.leb_gt; exact Hlt).
  rewrite E. reflexivity.
Qed.

(** X6. A PID file that holds the decimal digits of a number below 2^63,
    with any white space of the ASCII range before and after (the line
    feed dhclient writes after its PID is one), names that process:
    the contents parse to the number, and [stopDHClient] asks for the
    handle of exactly that process after reading the file. *)
Theorem pid_file_names_the_process
    (W : Type) (closure : Dhcp.teardownNamespaceClosure W) (pidFilePath : string)
    (s : St W) (ws1 ds ws2 : list byte) (w1 : W) :
  ReadFile (Dhcp.ioutil closure) pidFilePath (world s)
  = (Ok (ws1 ++ ds ++ ws2)%list, w1) ->
  forallb isSpace1 ws1 = true ->
  forallb isSpace1 ws2 = true ->
  ds <> [] ->
  forallb isDigit ds = true ->
  decimalValue ds < 2 ^ 63 ->
  Atoi (TrimSpace (string_of_list_byte (ws1 ++ ds ++ ws2))) = Ok (decimalValue ds) /\
  exists rest r,
    logs (Dhcp.stopDHClient closure pidFilePath) s
         (mkEvent (CReadFile pidFilePath) (RBytes (ws1 ++ ds ++ ws2))
          :: mkEvent (CFindProcess (decimalValue ds))
                     (resp_of_result RProcess
                        (fst (FindProcess (Dhcp.os closure) (decimalValue ds) w1)))
          :: rest) r.
Proof.
  intros Hread H1 H2 Hne Hd Hlt.
  assert (Hpid : Atoi (TrimSpace (string_of_list_byte (ws1 ++ ds ++ ws2)))
                 = Ok (decimalValue ds)).
  { rewrite TrimSpace_digits by assumption. now apply Atoi_digits. }
  split; [exact Hpid |].
  unfold Dhcp.stopDHClient, logs, orWrap, bind, do_ReadFile, do_FindProcess, do_Kill,
    invoke, ret.
  rewrite Hread. simpl. rewrite Hpid. simpl.
  destruct (FindProcess (Dhcp.os closure) (decimalValue ds) w1)
    as [[process | e] w2]; simpl.
  - destruct (Kill (Dhcp.os closure) process w2) as [[e |] w3]; simpl;
      eexists; eexists; log_done.
  - eexists; eexists; log_done.
Qed.

Lemma pid_file_names_the_process_witness :
  let closure := Fake.dhcpTeardown Fake.mac1 false in
  let pidFilePath := "/var/run/ns-dhclient4-eni1.pid" in
  let ds := [x34; x32; x34; x32] in
  Atoi (TrimSpace (string_of_list_byte ([] ++ ds ++ [x0a]))) = Ok (decimalValue ds) /\
  exists rest r,
    logs (Dhcp.stopDHClient closure pidFilePath) (Fake.start Fake.kernel)
         (mkEvent (CReadFile pidFilePath) (RBytes ([] ++ ds ++ [x0a]))
          :: mkEvent (CFindProcess (decimalValue ds))
                     (resp_of_result RProcess
                        (fst (FindProcess (Dhcp.os closure) (decimalValue ds)
                                Fake.kernel)))
          :: rest) r.
Proof.
  apply (pid_file_names_the_process Fake.Kernel (Fake.dhcpTeardown Fake.mac1 false)
           "/var/run/ns-dhclient4-eni1.pid" (Fake.start Fake.kernel)
           [] [x34; x32; x34; x32] [x0a] Fake.kernel).
  - reflexivity.
  - reflexivity.
  - reflexivity.
  - discriminate.
  - reflexivity.
  - reflexivity.
Defined.

(** ** Files of the dhclient *)

Lemma list_ascii_of_string_append (a b : string) :
  list_ascii_of_string (a ++ b)
  = (list_ascii_of_string a ++ list_ascii_of_string b)%list.
Proof. induction a as [| c a IH]; simpl; [reflexivity | now rewrite IH]. Qed.

Lemma append_inv_tail (a b t : string) : a ++ t = b ++ t -> a = b.
Proof.
  intros H. apply (f_equal list_ascii_of_string) in H.
  rewrite !list_ascii_of_string_append in H. apply app_inv_tail in H.
  rewrite <- (string_of_list_ascii_of_string a), <- (string_of_list_ascii_of_string b).
  now rewrite H.
Qed.

(** X7. The PID files of the dhclient never collide: two devices have
    the same IPv4 (or IPv6) PID file only when they have the same name,
    and no IPv4 PID file is the IPv6 PID file of any device.  The PID
    file teardown reads for a device is the one the setup passes to
    dhclient after -pf. *)
Theorem pid_files_do_not_collide (d d' : string) :
  (Dhcp.constructDHClientLeasePIDFilePathIPV4 d
   = Dhcp.constructDHClientLeasePIDFilePathIPV4 d' <-> d = d') /\
  (Dhcp.constructDHClientLeasePIDFilePathIPV6 d
   = Dhcp.constructDHClientLeasePIDFilePathIPV6 d' <-> d = d') /\
  Dhcp.constructDHClientLeasePIDFilePathIPV4 d
  <> Dhcp.constructDHClientLeasePIDFilePathIPV6 d' /\
  (exists before,
      Dhcp.constructDHClientV4Args d
      = (before ++ ["-pf"; Dhcp.constructDHClientLeasePIDFilePathIPV4 d; d])%list) /\
  (exists before,
      Dhcp.constructDHClientV6Args d
      = (before ++ ["-pf"; Dhcp.constructDHClientLeasePIDFilePathIPV6 d; d])%list).
Proof.
  unfold Dhcp.constructDHClientLeasePIDFilePathIPV4,
    Dhcp.constructDHClientLeasePIDFilePathIPV6, Dhcp.dhclientV4LeasePIDFilePathPrefix,
    Dhcp.dhclientV6LeasePIDFilePathPrefix.
  split; [| split; [| split; [| split]]].
  - split; [| now intros ->]. simpl. intros [= H]. now apply append_inv_tail in H.
  - split; [| now intros ->]. simpl. intros [= H]. now apply append_inv_tail in H.
  - simpl. intros [=].
  - now exists ["-q"; "-lf"; Dhcp.dhclientV4LeaseFilePathPrefix ++ "-" ++ d ++ ".leases"].
  - now exists ["-q"; "-6"; "-lf";
                Dhcp.dhclientV6LeaseFilePathPrefix ++ "-" ++ d ++ ".leases"].
Qed.

(** ** The metadata block of the static setup *)

(** X8. When the metadata block is requested and the fixed endpoint does
    not parse, the static setup fails without adding any route: it never
    returns nil, and when no call before failed it returns the parse
    error wrapped in the message of the endpoint, after the link was
    brought up. *)
Theorem static_setup_endpoint_unparsed
    (W : Type) (ParseCIDR : string -> result (IP * IPNet))
    (ctx : Static.setupNamespaceClosureContext W) (s : St W) (pe : error) :
  Static.blockIMDS ctx = true ->
  ParseCIDR Static.instanceMetadataEndpoint = Err pe ->
  exists evs r,
    logs (Static.setupNamespaceClosureContext_run ParseCIDR ctx) s evs r /\
    r <> None /\
    Forall (fun ev => forall route, ev_call ev <> CRouteAdd route) evs /\
    (Forall (fun ev => forall e, ev_resp ev <> RErr e) evs ->
     r = Some (Wrap pe Static.msg_parse_imds) /\
     exists eniLink before, map ev_call evs = (before ++ [CLinkSetUp eniLink])%list).
Proof.
  intros Hb Hp.
  unfold Static.setupNamespaceClosureContext_run, logs,
    andThen, orWrap, bind, do_LinkByName, do_LinkSetName, do_AddrAdd, do_LinkSetUp,
    do_RouteAdd, invoke, ret.
  rewrite Hb, Hp.
  destruct (LinkByName (Static.netLink ctx) (Static.deviceName ctx) (world s))
    as [[eniLink | e] w]; simpl.
  2:{ eexists; eexists. split; [log_done |]. split; [discriminate |].
      split; [repeat (apply Forall_cons; [discriminate |]); apply Forall_nil |].
      intros HF. exfalso. no_error_answer. }
  destruct (Static.ipv6Addr ctx); repeat answer;
    (eexists; eexists; split; [log_done |]; split; [discriminate |];
     split; [repeat (apply Forall_cons; [discriminate |]); apply Forall_nil |];
     intros HF;
     first [ split; [reflexivity |]; exists eniLink; simpl;
             match goal with
             | |- exists before, ?l = _ => exists (removelast l)
             end; reflexivity
           | exfalso; no_error_answer ]).
Qed.

Lemma static_setup_endpoint_unparsed_witness :
  let ParseCIDR := fun _ : string => @Err (IP * IPNet) (fundamental "invalid CIDR address") in
  exists evs r,
    logs (Static.setupNamespaceClosureContext_run ParseCIDR Fake.ipv4Only)
         (Fake.start Fake.kernel) evs r /\
    r <> None /\
    Forall (fun ev => forall route, ev_call ev <> CRouteAdd route) evs /\
    (Forall (fun ev => forall e, ev_resp ev <> RErr e) evs ->
     r = Some (Wrap (fundamental "invalid CIDR address") Static.msg_parse_imds) /\
     exists eniLink before, map ev_call evs = (before ++ [CLinkSetUp eniLink])%list).
Proof.
  intros ParseCIDR.
  apply (static_setup_endpoint_unparsed Fake.Kernel ParseCIDR Fake.ipv4Only
           (Fake.start Fake.kernel) (fundamental "invalid CIDR address")).
  - reflexivity.
  - reflexivity.
Defined.

(** X9. When the metadata block is not requested, the static setup does
    not parse the endpoint at all, and every route it adds is a default
    route of the unicast type: no blackhole route is ever added. *)
Theorem static_setup_without_metadata_block
    (W : Type) (ParseCIDR ParseCIDR' : string -> result (IP * IPNet))
    (ctx : Static.setupNamespaceClosureContext W) (s : St W) :
  Static.blockIMDS ctx = false ->
  Static.setupNamespaceClosureContext_run ParseCIDR ctx s
  = Static.setupNamespaceClosureContext_run ParseCIDR' ctx s /\
  exists evs r,
    logs (Static.setupNamespaceClosureContext_run ParseCIDR ctx) s evs r /\
    Forall (fun ev => forall route,
                ev_call ev = CRouteAdd route ->
                Dst route = None /\ Type_ route <> RTN_BLACKHOLE) evs.
Proof.
  intros Hb.
  unfold Static.setupNamespaceClosureContext_run, logs,
    andThen, orWrap, bind, do_LinkByName, do_LinkSetName, do_AddrAdd, do_LinkSetUp,
    do_RouteAdd, invoke, ret.
  rewrite Hb. split; [reflexivity |].
  destruct (LinkByName (Static.netLink ctx) (Static.deviceName ctx) (world s))
    as [[eniLink | e] w]; simpl.
  2:{ eexists; eexists. split; [log_done |].
      repeat (apply Forall_cons; [discriminate |]); apply Forall_nil. }
  destruct (Static.ipv6Addr ctx); repeat answer;
    try match goal with
        | |- context [Static.isRouteExistsError ?e] =>
            destruct (Static.isRouteExistsError e); simpl
        end;
    (eexists; eexists; split; [log_done |];
     repeat (apply Forall_cons;
             [simpl; intros route Heq;
              first [ discriminate
                    | injection Heq as <-; split; [reflexivity | discriminate] ] |]);
     apply Forall_nil).
Qed.

Lemma static_setup_without_metadata_block_witness :
  let ctx := Static.mkSetup (Fake.netLink false) "eth0" "eni1" "02:00:00:00:00:01"
               Fake.addr4 (Some Fake.addr6) (Fake.ParseIP "10.0.1.1")
               (Fake.ParseIP "fe80::1") false in
  let ParseCIDR' := fun _ : string => @Err (IP * IPNet) (fundamental "unused") in
  Static.setupNamespaceClosureContext_run Fake.ParseCIDR ctx (Fake.start Fake.kernel)
  = Static.setupNamespaceClosureContext_run ParseCIDR' ctx (Fake.start Fake.kernel) /\
  exists evs r,
    logs (Static.setupNamespaceClosureContext_run Fake.ParseCIDR ctx)
         (Fake.start Fake.kernel) evs r /\
    Forall (fun ev => forall route,
                ev_call ev = CRouteAdd route ->
                Dst route = None /\ Type_ route <> RTN_BLACKHOLE) evs.
Proof.
  intros ctx ParseCIDR'.
  apply (static_setup_without_metadata_block Fake.Kernel Fake.ParseCIDR ParseCIDR' ctx
           (Fake.start Fake.kernel)).
  reflexivity.
Defined.

(** ** The sign of a PID *)

Lemma TrimSpace_plain (ws1 ws2 front : list byte) (c l : byte) (back : list byte) :
  forallb isSpace1 ws1 = true ->
  forallb isSpace1 ws2 = true ->
  isSpace1 c = false -> (Byte.to_N c <? 128)%N = true ->
  isSpace1 l = false -> (Byte.to_N l <? 128)%N = true ->
  c :: back = (front ++ [l])%list ->
  TrimSpace (string_of_list_byte (ws1 ++ (c :: back) ++ ws2))
  = string_of_list_byte (c :: back).
Proof.
  intros H1 H2 Hc1 Hc2 Hl1 Hl2 Hshape. unfold TrimSpace. f_equal.
  rewrite list_byte_of_string_of_list_byte.
  assert (Hleft : TrimLeftSpace (ws1 ++ (c :: back) ++ ws2)
                  = ((c :: back) ++ ws2)%list).
  { unfold TrimLeftSpace. rewrite trimFront_spaces by assumption.
    simpl app. apply trimFront_keeps; try assumption.
    - intros x x2 H. now apply isSpace2_high in H.
    - intros x x2 x3 H. now apply isSpace3_high in H. }
  rewrite Hleft. unfold TrimRightSpace. rewrite rev_app_distr.
  rewrite trimFront_spaces.
  2:{ rewrite forallb_forall in *. intros x Hx. apply H2. now apply in_rev. }
  rewrite Hshape at 1. rewrite rev_app_distr. simpl app.
  rewrite trimFront_keeps; try assumption.
  - change (l :: rev front) with (rev [l] ++ rev front)%list.
    rewrite <- rev_app_distr, rev_involutive. now symmetry.
  - intros x x2 H. now apply isSpace2_high in H.
  - intros x x2 x3 H. now apply isSpace3_high in H.
Qed.

(** X10. [stopDHClient] does not check the sign of the PID it reads: a
    PID file that holds a minus sign followed by the decimal digits of a
    number below 2^63 (and white space of the ASCII range after them)
    makes it ask for the handle of the process with the negated number. *)
Theorem pid_file_sign_is_not_checked
    (W : Type) (closure : Dhcp.teardownNamespaceClosure W) (pidFilePath : string)
    (s : St W) (ds ws : list byte) (w1 : W) :
  ReadFile (Dhcp.ioutil closure) pidFilePath (world s)
  = (Ok (x2d :: ds ++ ws)%list, w1) ->
  forallb isSpace1 ws = true ->
  ds <> [] ->
  forallb isDigit ds = true ->
  decimalValue ds < 2 ^ 63 ->
  Atoi (TrimSpace (string_of_list_byte (x2d :: ds ++ ws))) = Ok (- decimalValue ds) /\
  exists rest r,
    logs (Dhcp.stopDHClient closure pidFilePath) s
         (mkEvent (CReadFile pidFilePath) (RBytes (x2d :: ds ++ ws))
          :: mkEvent (CFindProcess (- decimalValue ds))
                     (resp_of_result RProcess
                        (fst (FindProcess (Dhcp.os closure) (- decimalValue ds) w1)))
          :: rest) r.
Proof.
  intros Hread Hws Hne Hd Hlt.
  assert (Hpid : Atoi (TrimSpace (string_of_list_byte (x2d :: ds ++ ws)))
                 = Ok (- decimalValue ds)).
  { destruct (exists_last Hne) as (front & l & Hds).
    assert (Hl : isDigit l = true).
    { rewrite forallb_forall in Hd. apply Hd. rewrite Hds.
      apply in_or_app. right. now left. }
    destruct (isDigit_facts l Hl) as (Hl1 & Hl2 & _).
    change (x2d :: ds ++ ws)%list with ([] ++ (x2d :: ds) ++ ws)%list.
    rewrite (TrimSpace_plain [] ws (x2d :: front) x2d l ds);
      try reflexivity; try assumption.
    2:{ rewrite Hds. reflexivity. }
    unfold Atoi. rewrite list_byte_of_string_of_list_byte.
    cbv beta iota zeta. unfold ParseUint.
    destruct ds as [| c r]; [contradiction |].
    rewrite (parseDigits_value (c :: r) 0 Hd ltac:(lia) Hlt).
    fold (decimalValue (c :: r)).
    assert (E : (2 ^ 63 <? decimalValue (c :: r)) = false)
      by (apply Z.ltb_ge; lia).
    rewrite E. reflexivity. }
  split; [exact Hpid |].
  unfold Dhcp.stopDHClient, logs, orWrap, bind, do_ReadFile, do_FindProcess, do_Kill,
    invoke, ret.
  rewrite Hread. simpl. rewrite Hpid. simpl.
  destruct (FindProcess (Dhcp.os closure) (- decimalValue ds) w1)
    as [[process | e] w2]; simpl.
  - destruct (Kill (Dhcp.os closure) process w2) as [[e |] w3]; simpl;
      eexists; eexists; log_done.
  - eexists; eexists; log_done.
Qed.

Lemma pid_file_sign_is_not_checked_witness :
  let ioutil := mkIOUtil (fun (_ : string) (w : Fake.Kernel) =>
                            (Ok [x2d; x37; x0a], w)) in
  let closure := Dhcp.mkTeardown (Fake.netLink false) ioutil Fake.os Fake.mac1 false in
  let pidFilePath := "/var/run/ns-dhclient4-eni1.pid" in
  Atoi (TrimSpace (string_of_list_byte (x2d :: [x37] ++ [x0a]))) = Ok (- decimalValue [x37]) /\
  exists rest r,
    logs (Dhcp.stopDHClient closure pidFilePath) (Fake.start Fake.kernel)
         (mkEvent (CReadFile pidFilePath) (RBytes (x2d :: [x37] ++ [x0a]))
          :: mkEvent (CFindProcess (- decimalValue [x37]))
                     (resp_of_result RProcess
                        (fst (FindProcess (Dhcp.os closure) (- decimalValue [x37])
                                Fake.kernel)))
          :: rest) r.
Proof.
  intros ioutil closure pidFilePath.
  apply (pid_file_sign_is_not_checked Fake.Kernel closure pidFilePath
           (Fake.start Fake.kernel) [x37] [x0a] Fake.kernel).
  - reflexivity.
  - reflexivity.
  - discriminate.
  - reflexivity.
  - reflexivity.
Defined.
